(** * rmm.py: the validator, the [run] command and the [scaffold] command

    A shallow embedding of
    [skills/datto-rmm-component-dev/scripts/rmm.py]: the functions
    [validate_output_var], [validate_monitor_output], [copy_attachments],
    [parse_env_file], [cmd_run] and [cmd_validate_monitor_output];
    [normalize_kebab], [category_dir], [os_dir], [template_path],
    [destination_path], [render_template], [ensure_parent_dir] and
    [cmd_scaffold]; and of [main] what it does with an [RmmError].

    - A Python [str] is a list of Unicode code points ([N]); a [Path] is
      its tuple of [parts].
    - A raised exception is a constructor of [result] (of [outcome] for
      the [scaffold] command): [Raise] for [RmmError], [Uncaught] for
      what [main] lets through.
    - An f-string is the list of its literal and interpolated pieces.
    - A line of [text.splitlines()] is an object: its value together with
      an identity, since the validator compares lines with [is not].
    - The file system and the child processes started are an explicit
      [World], threaded through the calls of [cmd_run] and
      [cmd_scaffold]; what the script takes from its surroundings
      (environment, temporary directory, codecs, [shlex], the interpreter
      it runs, the Unicode tables of [str.lower]) is a [Host] or a
      parameter.
    - [print] and [eprint] are left out: they change neither the value
      returned nor the files.  [World] holds no file modes, so [chmod]
      changes nothing in it. *)

From Stdlib Require Import ZArith NArith List String Ascii Bool Lia.
From Stdlib Require Strings.Byte.
From stdpp Require Import base gmap sets list strings.

Abbreviation str := (list N).

(** ** String literals *)

Definition lit (s : string) : str :=
  map N_of_ascii (list_ascii_of_string s).

Definition LF : N := 10%N.
Definition CR : N := 13%N.

(** ** Character classes of CPython *)

(** [Py_UNICODE_ISSPACE]: what [str.strip()] removes and [str.isspace()]
    accepts. *)
Definition is_space (c : N) : bool :=
  ((9 <=? c) && (c <=? 13) || (28 <=? c) && (c <=? 32)
   || (c =? 133) || (c =? 160) || (c =? 5760)
   || (8192 <=? c) && (c <=? 8202)
   || (c =? 8232) || (c =? 8233) || (c =? 8239) || (c =? 8287)
   || (c =? 12288))%N.

(** [Py_UNICODE_ISLINEBREAK]: where [str.splitlines()] cuts. *)
Definition is_linebreak (c : N) : bool :=
  ((10 <=? c) && (c <=? 13) || (28 <=? c) && (c <=? 30)
   || (c =? 133) || (c =? 8232) || (c =? 8233))%N.

(** The class [[A-Za-z0-9_]]. *)
Definition is_word_char (c : N) : bool :=
  ((65 <=? c) && (c <=? 90) || (97 <=? c) && (c <=? 122)
   || (48 <=? c) && (c <=? 57) || (c =? 95))%N.

(** ** [str] methods *)

Fixpoint lstrip (s : str) : str :=
  match s with
  | c :: r => if is_space c then lstrip r else s
  | [] => []
  end.

Definition rstrip (s : str) : str := rev (lstrip (rev s)).

(** [s.strip()] *)
Definition strip (s : str) : str := rstrip (lstrip s).

Fixpoint lstrip_chars (chars s : str) : str :=
  match s with
  | c :: r => if bool_decide (c ∈ chars) then lstrip_chars chars r else s
  | [] => []
  end.

(** [s.rstrip(chars)] *)
Definition rstrip_chars (chars s : str) : str :=
  rev (lstrip_chars chars (rev s)).

(** [s.isspace()]: every character is whitespace and there is at least
    one. *)
Definition isspace (s : str) : bool :=
  match s with
  | [] => false
  | _ => forallb is_space s
  end.

(** [text.splitlines()], with [cur] the reversed line read so far.  A
    carriage return directly followed by a line feed is one boundary; no
    empty line is produced after a final boundary. *)
Fixpoint splitlines_from (cur s : str) : list str :=
  match s with
  | [] => match cur with [] => [] | _ => [rev cur] end
  | c :: rest =>
      if is_linebreak c then
        rev cur ::
          match rest with
          | d :: rest' =>
              if (c =? CR)%N && (d =? LF)%N
              then splitlines_from [] rest'
              else splitlines_from [] rest
          | [] => []
          end
      else splitlines_from (c :: cur) rest
  end.

Definition splitlines (text : str) : list str := splitlines_from [] text.

(** ** Regular expressions of the script *)

(** [re.fullmatch(r"[A-Za-z0-9_]+", s)] *)
Fixpoint fullmatch_word_plus (s : str) : bool :=
  match s with
  | [] => false
  | c :: r =>
      is_word_char c && match r with [] => true | _ => fullmatch_word_plus r end
  end.

(** [s] without its prefix [p], when it has it. *)
Fixpoint strip_prefix (p s : str) : option str :=
  match p, s with
  | [], _ => Some s
  | a :: p', b :: s' => if (a =? b)%N then strip_prefix p' s' else None
  | _ :: _, [] => None
  end.

Fixpoint take_while (f : N -> bool) (s : str) : str :=
  match s with
  | c :: r => if f c then c :: take_while f r else []
  | [] => []
  end.

(** The tail [.+$] of the pattern: at least one character other than a
    line feed, up to the end of the string or to a line feed that ends
    it. *)
Definition dot_plus_dollar (s : str) : bool :=
  let body := take_while (fun c => negb (c =? LF)%N) s in
  match body, drop (length body) s with
  | _ :: _, [] => true
  | _ :: _, [c] => (c =? LF)%N
  | _, _ => false
  end.

(** [re.compile(rf"^{re.escape(output_var)}=.+$").match(ln)]: the escaped
    name matches itself, character by character. *)
Definition pattern_match (output_var ln : str) : bool :=
  match strip_prefix (output_var ++ lit "=") ln with
  | Some value => dot_plus_dollar value
  | None => false
  end.

(** ** Exceptions and messages *)

Abbreviation Path := (list string).

Inductive piece :=
| Lit (s : string)
| Fmt (s : str)
| FmtInt (n : nat)
| FmtList (l : list str).

Abbreviation message := (list piece).

(** The [RmmError]s the script raises, one constructor per [raise]. *)
Inductive RmmError :=
| InvalidOutputVar (output_var : str)
| ScriptNotFound (script_path : Path)
| VarsFileNotFound (env_path : Path)
| InvalidEnvLine (raw_line : str)
| EmptyEnvKey (raw_line : str)
| AttachmentsNotDirectory (attachments_dir : Path)
| UnsupportedExtension (suffix : string)
| CommandNotFound (cmd0 : string).

(** What a call does: return, raise [RmmError], or raise something
    [main] does not catch. *)
Inductive result (A : Type) :=
| Ok (a : A)
| Raise (e : RmmError)
| Uncaught (what : string).
Arguments Ok {A} a.
Arguments Raise {A} e.
Arguments Uncaught {A} what.

Definition bind {A B} (r : result A) (k : A -> result B) : result B :=
  match r with
  | Ok a => k a
  | Raise e => Raise e
  | Uncaught w => Uncaught w
  end.

Notation "'let*' x ':=' r 'in' k" := (bind r (fun x => k))
  (at level 10, x name, r at level 100, k at level 200).

(** ** [validate_output_var] *)

Definition validate_output_var (output_var : str) : result str :=
  let output_var := strip output_var in
  if fullmatch_word_plus output_var then Ok output_var
  else Raise (InvalidOutputVar output_var).

(** ** [validate_monitor_output] *)

Record MonitorValidationResult := {
  ok : bool;
  errors : list message
}.

(** A line object: identity and value. *)
Abbreviation line := (nat * str)%type.

(** [a is b] *)
Definition is_ (a b : line) : bool := (fst a =? fst b)%nat.

(** [enumerate(lines)], from index [i].  The index of a line serves as
    its identity: [splitlines()] builds one object per line, and the
    objects CPython shares (empty and one-character strings) are never
    [matching[0]], the only line others are compared with (see
    [pattern_match_length]). *)
Fixpoint enumerate_from (i : nat) (l : list str) : list line :=
  match l with
  | [] => []
  | x :: r => (i, x) :: enumerate_from (S i) r
  end.

Definition enumerate (l : list str) : list line := enumerate_from 0 l.

(** [find_all(marker)] *)
Definition find_all (lines : list line) (marker : string) : list nat :=
  map fst
    (List.filter (fun ln => bool_decide (strip (snd ln) = lit marker)) lines).

(** [line.rstrip("\n")]: the same object when nothing is removed, a new
    one otherwise ([fresh] is the number of lines, so that new identities
    differ from all others). *)
Definition rstrip_newline (fresh : nat) (ln : line) : line :=
  let v := rstrip_chars [LF] (snd ln) in
  if bool_decide (v = snd ln) then ln else (fresh + fst ln, v).

(** [[line.rstrip("\n") for line in lines[rs + 1 : re_]]] *)
Definition result_lines (lines : list line) (rs re_ : nat) : list line :=
  map (rstrip_newline (length lines))
    (take (re_ - (rs + 1)) (drop (rs + 1) lines)).

(** [[ln for ln in result_lines if ln.strip() != ""]] *)
Definition non_empty (result_lines : list line) : list line :=
  List.filter (fun ln => negb (bool_decide (strip (snd ln) = []))) result_lines.

Definition count_errors (diag_start diag_end res_start res_end : list nat)
  : list message :=
  (if negb (length diag_start =? 1)
   then [[Lit "Expected exactly one '<-Start Diagnostic->' line."]] else [])
  ++ (if negb (length diag_end =? 1)
      then [[Lit "Expected exactly one '<-End Diagnostic->' line."]] else [])
  ++ (if negb (length res_start =? 1)
      then [[Lit "Expected exactly one '<-Start Result->' line."]] else [])
  ++ (if negb (length res_end =? 1)
      then [[Lit "Expected exactly one '<-End Result->' line."]] else []).

Definition order_error : message :=
  [Lit "Marker order must be: Start Diagnostic -> End Diagnostic -> Start Result -> End Result."].

Definition empty_error : message :=
  [Lit "Result block is empty; expected one output variable line."].

Definition match_count_error (output_var : str) (found : nat) : message :=
  [Lit "Expected exactly one '"; Fmt output_var;
   Lit "=...' line inside the result block; found "; FmtInt found; Lit "."].

Definition example_error : message :=
  [Lit "Example: Status=OK: All checks passed"].

Definition one_line_error : message :=
  [Lit "Result block must contain exactly one non-empty line (the output variable line)."].

Definition extra_lines_error (other_lines : list str) : message :=
  [Lit "Unexpected additional lines: "; FmtList other_lines].

Definition spaces_error : message :=
  [Lit "Do not include spaces around '=' (use 'Status=OK: ...', not 'Status= OK: ...')."].

Definition invalid (errors : list message) : MonitorValidationResult :=
  {| ok := false; errors := errors |}.

(** Lines 190-214: the checks on the non-empty lines of the result
    block.  [matching[0]] is read after [len(matching) != 1] has been
    excluded. *)
Definition check_result_block (non_empty : list line) (output_var : str)
  : MonitorValidationResult :=
  match non_empty with
  | [] => invalid [empty_error]
  | _ :: _ =>
      let matching :=
        List.filter (fun ln => pattern_match output_var (snd ln)) non_empty in
      if negb (length matching =? 1) then
        invalid [match_count_error output_var (length matching); example_error]
      else
        let m0 := hd (0, []) matching in
        let other_lines := List.filter (fun ln => negb (is_ ln m0)) non_empty in
        match other_lines with
        | _ :: _ =>
            invalid [one_line_error; extra_lines_error (map snd other_lines)]
        | [] =>
            let value := drop (length output_var + 1) (snd m0) in
            if isspace (take 1 value) then invalid [spaces_error]
            else {| ok := true; errors := [] |}
        end
  end.

(** Lines 159-188: the body of [validate_monitor_output] after the name
    check, on the enumerated lines.  The four [[0]] are read after the
    count test has found every list of length one. *)
Definition validate_lines (lines : list line) (output_var : str)
  : MonitorValidationResult :=
  let diag_start := find_all lines "<-Start Diagnostic->" in
  let diag_end := find_all lines "<-End Diagnostic->" in
  let res_start := find_all lines "<-Start Result->" in
  let res_end := find_all lines "<-End Result->" in
  let errors := count_errors diag_start diag_end res_start res_end in
  match errors with
  | _ :: _ => invalid errors
  | [] =>
      let ds := hd 0 diag_start in
      let de := hd 0 diag_end in
      let rs := hd 0 res_start in
      let re_ := hd 0 res_end in
      if negb ((ds <? de) && (de <? rs) && (rs <? re_)) then
        invalid [order_error]
      else
        check_result_block (non_empty (result_lines lines rs re_)) output_var
  end.

Definition validate_monitor_output (text output_var : str)
  : result MonitorValidationResult :=
  let* output_var := validate_output_var output_var in
  Ok (validate_lines (enumerate (splitlines text)) output_var).

(** ** The file system, the host and the [run] command *)

Abbreviation bytes := (list Byte.byte).
Abbreviation environment := (gmap str str).

(** A child process that was started. *)
Record Process := {
  p_cmd : list string;
  p_cwd : Path;
  p_env : environment;
  p_returncode : Z
}.

(** What a call can change: the directories, the regular files with
    their contents, and the child processes started so far.  A [Path] is
    its tuple of [parts]. *)
Record World := {
  dirs : gset Path;
  files : gmap Path bytes;
  spawned : list Process
}.

(** What the script reads from its surroundings and the library
    functions it calls without this development looking inside them. *)
Record Host := {
  REPO_ROOT : Path;
  (** [Path.resolve()] *)
  resolve : Path -> Path;
  (** [os.environ] *)
  environ : environment;
  (** the directory [tempfile.mkdtemp(prefix="rmm-run-")] creates *)
  mkdtemp : World -> Path;
  (** decoding as UTF-8; [None] is [UnicodeDecodeError] *)
  decode_utf8 : bytes -> option str;
  (** decoding as UTF-8 with [errors="replace"] *)
  decode_utf8_replace : bytes -> str;
  (** [shlex.split(value, posix=True)]; [None] is [ValueError] *)
  shlex_split : str -> option (list str);
  (** the interpreter run on the script: exit code and what it writes to
      its standard output and error; [None] when the interpreter is
      not installed ([FileNotFoundError]) *)
  child : World -> list string -> Path -> environment
          -> option (Z * bytes * bytes)
}.

(** Calls that read or change the world and may raise. *)
Definition M (A : Type) : Type := World -> result A * World.

Definition ret {A} (a : A) : M A := fun w => (Ok a, w).
Definition raise {A} (e : RmmError) : M A := fun w => (Raise e, w).
Definition uncaught {A} (what : string) : M A := fun w => (Uncaught what, w).
Definition lift {A} (r : result A) : M A := fun w => (r, w).

Definition bindM {A B} (m : M A) (k : A -> M B) : M B :=
  fun w =>
    match m w with
    | (Ok a, w') => k a w'
    | (Raise e, w') => (Raise e, w')
    | (Uncaught what, w') => (Uncaught what, w')
    end.

Notation "x <- m ;; k" := (bindM m (fun x => k))
  (at level 100, m at next level, right associativity).
Notation "m ;;; k" := (bindM m (fun _ => k))
  (at level 100, right associativity).

(** *** [pathlib] *)

Definition is_absolute (p : Path) : bool :=
  match p with
  | root :: _ => String.eqb root "/"
  | [] => false
  end.

(** [a / b] *)
Definition joinpath (a b : Path) : Path :=
  if is_absolute b then b else a ++ b.

(** [p.name] *)
Definition name (p : Path) : string :=
  match p with
  | [] => ""
  | [root] => if String.eqb root "/" then "" else root
  | _ => List.last p ""
  end.

Definition dot : ascii := "."%char.

(** [name.rfind(".")], counted from the end of the name: [Some k] when
    the last dot has [k] characters after it. *)
Fixpoint chars_after_last_dot (reversed : list ascii) : option nat :=
  match reversed with
  | [] => None
  | c :: r =>
      if Ascii.eqb c dot then Some 0
      else option_map S (chars_after_last_dot r)
  end.

(** [p.suffix] (pathlib up to Python 3.13): from the last dot of the
    name, unless that dot is its first or its last character. *)
Definition suffix (p : Path) : string :=
  let chars := list_ascii_of_string (name p) in
  match chars_after_last_dot (rev chars) with
  | Some k =>
      let i := length chars - 1 - k in
      if (0 <? i) && (i <? length chars - 1)
      then string_of_list_ascii (drop i chars)
      else ""
  | None => ""
  end.

Definition lower_char (c : ascii) : ascii :=
  let n := nat_of_ascii c in
  if (65 <=? n) && (n <=? 90) then ascii_of_nat (n + 32) else c.

(** [s.lower()], on the ASCII letters. *)
Definition lower (s : string) : string :=
  string_of_list_ascii (map lower_char (list_ascii_of_string s)).

(** [str(p)] *)
Definition path_str (p : Path) : string :=
  match p with
  | [] => "."
  | root :: rest =>
      if String.eqb root "/" then "/" +:+ String.concat "/" rest
      else String.concat "/" p
  end.

Definition is_dir (p : Path) (w : World) : bool :=
  bool_decide (p ∈ dirs w).

Definition is_file (p : Path) (w : World) : bool :=
  bool_decide (is_Some (files w !! p)).

(** [p.exists()] *)
Definition exists_ (p : Path) (w : World) : bool :=
  is_dir p w || is_file p w.

(** [p] and its ancestors, nearest the root first. *)
Definition ancestors_and_self (p : Path) : list Path :=
  map (fun n => take n p) (seq 1 (length p)).

(** [p.mkdir(parents=True, exist_ok=True)] *)
Definition mkdir (p : Path) : M unit :=
  fun w =>
    if is_file p w then (Uncaught "FileExistsError", w)
    else if existsb (fun q => is_file q w) (ancestors_and_self p)
    then (Uncaught "NotADirectoryError", w)
    else (Ok tt, {| dirs := dirs w ∪ list_to_set (ancestors_and_self p);
                    files := files w;
                    spawned := spawned w |}).

(** [Path(tempfile.mkdtemp(prefix="rmm-run-"))] *)
Definition make_temp_dir (h : Host) : M Path :=
  fun w =>
    let d := mkdtemp h w in
    (Ok d, {| dirs := dirs w ∪ {[ d ]};
              files := files w;
              spawned := spawned w |}).

(** [p.open("wb")]: the file is created or emptied. *)
Definition open_wb (p : Path) : M unit :=
  fun w =>
    if is_dir p w then (Uncaught "IsADirectoryError", w)
    else (Ok tt, {| dirs := dirs w;
                    files := <[p := []]> (files w);
                    spawned := spawned w |}).

Definition read_bytes (p : Path) : M bytes :=
  fun w =>
    match files w !! p with
    | Some content => (Ok content, w)
    | None =>
        (Uncaught (if is_dir p w then "IsADirectoryError"
                   else "FileNotFoundError"), w)
    end.

(** [shutil.copy2(src, dst)] *)
Definition copy2 (src dst : Path) : M unit :=
  fun w =>
    let dst := if is_dir dst w then dst ++ [name src] else dst in
    if bool_decide (src = dst) then (Uncaught "SameFileError", w)
    else if is_dir dst w then (Uncaught "IsADirectoryError", w)
    else
      match files w !! src with
      | Some content =>
          (Ok tt, {| dirs := dirs w;
                     files := <[dst := content]> (files w);
                     spawned := spawned w |})
      | None => (Uncaught "FileNotFoundError", w)
      end.

(** *** [copy_attachments] *)

(** The regular files directly inside [d], as [iterdir()] and
    [is_file()] select them. *)
Definition regular_children (d : Path) (w : World) : list Path :=
  List.filter (fun q => bool_decide (q = d ++ [name q]) && is_file q w)
    (map fst (map_to_list (files w))).

Fixpoint copy_each (children : list Path) (workdir : Path) : M unit :=
  match children with
  | [] => ret tt
  | child :: rest =>
      copy2 child (workdir ++ [name child]) ;;; copy_each rest workdir
  end.

Definition copy_attachments (attachments_dir workdir : Path) : M unit :=
  fun w =>
    if negb (exists_ attachments_dir w) || negb (is_dir attachments_dir w)
    then (Raise (AttachmentsNotDirectory attachments_dir), w)
    else copy_each (regular_children attachments_dir w) workdir w.

(** *** [parse_env_file] *)

Definition startswith (prefix s : str) : bool :=
  match strip_prefix prefix s with Some _ => true | None => false end.

(** [line.split("=", 1)] when ["=" in line]. *)
Fixpoint split_at_equals (s : str) : option (str * str) :=
  match s with
  | [] => None
  | c :: r =>
      if (c =? 61)%N then Some ([], r)
      else match split_at_equals r with
           | Some (key, value) => Some (c :: key, value)
           | None => None
           end
  end.

Fixpoint parse_env_lines (h : Host) (lines : list str) (env : environment)
  : result environment :=
  match lines with
  | [] => Ok env
  | raw_line :: rest =>
      let line := strip raw_line in
      if bool_decide (line = []) || startswith (lit "#") line then
        parse_env_lines h rest env
      else
        let line :=
          if startswith (lit "export ") line
          then strip (drop (length (lit "export ")) line) else line in
        match split_at_equals line with
        | None => Raise (InvalidEnvLine raw_line)
        | Some (key, value) =>
            let key := strip key in
            let value := strip value in
            if bool_decide (key = []) then Raise (EmptyEnvKey raw_line)
            else
              let value :=
                if startswith (lit "'") value || startswith [34%N] value
                then match shlex_split h value with
                     | Some [parsed] => parsed
                     | _ => value
                     end
                else value in
              parse_env_lines h rest (<[key := value]> env)
        end
  end.

Definition parse_env_file (h : Host) (env_path : Path) : M environment :=
  fun w =>
    if negb (exists_ env_path w) then (Raise (VarsFileNotFound env_path), w)
    else
      (content <- read_bytes env_path ;;
       match decode_utf8 h content with
       | None => uncaught "UnicodeDecodeError"
       | Some text => lift (parse_env_lines h (splitlines text) ∅)
       end) w.

(** *** [cmd_run] *)

(** The parsed command line of [run]; an option that was not given, or
    given empty, is [None]. *)
Record Namespace := {
  args_script : Path;
  args_vars : option Path;
  args_workdir : option Path;
  args_attachments : option Path;
  args_validate_monitor : bool;
  args_output_var : str
}.

(** What lines 298-324 leave for the rest of [cmd_run]. *)
Record Prepared := {
  script_path : Path;
  workdir : Path;
  env : environment;
  cmd : list string
}.

Definition stdout_path (p : Prepared) : Path := workdir p ++ ["stdout.txt"].
Definition stderr_path (p : Prepared) : Path := workdir p ++ ["stderr.txt"].

(** Lines 298-324: the script, the working directory, the environment,
    the attachments and the command line. *)
Definition cmd_run_prepare (h : Host) (args : Namespace) : M Prepared :=
  let script_path := args_script args in
  let script_path :=
    if negb (is_absolute script_path)
    then resolve h (joinpath (REPO_ROOT h) script_path) else script_path in
  found <- (fun w => (Ok (exists_ script_path w), w)) ;;
  if negb found then raise (ScriptNotFound script_path)
  else
    workdir <- match args_workdir args with
               | Some d => ret (resolve h d)
               | None => make_temp_dir h
               end ;;
    mkdir workdir ;;;
    env <- match args_vars args with
           | Some vars =>
               parsed <- parse_env_file h vars ;;
               ret (parsed ∪ environ h)
           | None => ret (environ h)
           end ;;
    match args_attachments args with
    | Some attachments => copy_attachments attachments workdir
    | None => ret tt
    end ;;;
    cmd <- (if String.eqb (lower (suffix script_path)) ".ps1" then
              ret ["pwsh"; "-NoProfile"; "-NonInteractive";
                   "-ExecutionPolicy"; "Bypass"; "-File";
                   path_str script_path]
            else if String.eqb (lower (suffix script_path)) ".sh" then
              ret ["bash"; path_str script_path]
            else raise (UnsupportedExtension (suffix script_path))) ;;
    ret {| script_path := script_path; workdir := workdir;
           env := env; cmd := cmd |}.

(** Lines 330-341: both capture files are opened, then the child runs
    with its streams redirected into them. *)
Definition cmd_run_spawn (h : Host) (p : Prepared) : M Z :=
  open_wb (stdout_path p) ;;;
  open_wb (stderr_path p) ;;;
  fun w =>
    match child h w (cmd p) (workdir p) (env p) with
    | None => (Raise (CommandNotFound (hd "" (cmd p))), w)
    | Some (returncode, out, err) =>
        (Ok returncode,
         {| dirs := dirs w;
            files := <[stderr_path p := err]>
                       (<[stdout_path p := out]> (files w));
            spawned := spawned w ++
                       [{| p_cmd := cmd p; p_cwd := workdir p;
                           p_env := env p; p_returncode := returncode |}] |})
    end.

(** Lines 347-349. *)
Definition should_validate (validate_monitor : bool) (script_path : Path)
  : bool :=
  let should_validate := validate_monitor in
  if negb should_validate && bool_decide ("Monitors" ∈ script_path)
  then true else should_validate.

(** Lines 351-364: the exit code. *)
Definition cmd_run_finish (h : Host) (args : Namespace) (p : Prepared)
    (returncode : Z) : M Z :=
  let output_var := args_output_var args in
  if should_validate (args_validate_monitor args) (script_path p) then
    content <- read_bytes (stdout_path p) ;;
    let stdout_text := decode_utf8_replace h content in
    validation <- lift (validate_monitor_output stdout_text output_var) ;;
    if ok validation then ret returncode
    else if (returncode =? 0)%Z then ret 2%Z
    else ret returncode
  else ret returncode.

Definition cmd_run (h : Host) (args : Namespace) : M Z :=
  p <- cmd_run_prepare h args ;;
  returncode <- cmd_run_spawn h p ;;
  cmd_run_finish h args p returncode.

(** [main], for the [run] sub-command: an [RmmError] becomes exit code
    1. *)
Definition main_run (h : Host) (args : Namespace) (w : World)
  : result Z * World :=
  match cmd_run h args w with
  | (Raise _, w') => (Ok 1%Z, w')
  | other => other
  end.
(** ** Vocabulary of the statements *)

Definition markers : list string :=
  ["<-Start Diagnostic->"; "<-End Diagnostic->";
   "<-Start Result->"; "<-End Result->"].

(** The count error that names [marker]. *)
Definition expected_one (marker : string) : message :=
  [Lit ("Expected exactly one '" +:+ marker +:+ "' line.")].

(** How many lines of [text] are the marker, once trimmed. *)
Definition marker_count (text : str) (marker : string) : nat :=
  length (find_all (enumerate (splitlines text)) marker).

(** No two lines are the same object. *)
Definition distinct_objects (lines : list line) : Prop :=
  NoDup (map fst lines).

(** No line holds a line boundary. *)
Definition single_lines (lines : list line) : Prop :=
  Forall (fun ln => Forall (fun c => is_linebreak c = false) (snd ln)) lines.

(** The non-empty lines of the result block of [text]. *)
Definition result_block (text : str) (rs re_ : nat) : list line :=
  non_empty (result_lines (enumerate (splitlines text)) rs re_).

(** Each marker on exactly one line of [text], in the required order. *)
Definition framed (text : str) (ds de rs re_ : nat) : Prop :=
  find_all (enumerate (splitlines text)) "<-Start Diagnostic->" = [ds]
  /\ find_all (enumerate (splitlines text)) "<-End Diagnostic->" = [de]
  /\ find_all (enumerate (splitlines text)) "<-Start Result->" = [rs]
  /\ find_all (enumerate (splitlines text)) "<-End Result->" = [re_]
  /\ ds < de /\ de < rs /\ rs < re_.

(** The errors of the input of [run] that the script can find before it
    starts the child: script, override file, attachments directory,
    extension. *)
Definition configuration_error (e : RmmError) : bool :=
  match e with
  | ScriptNotFound _ | VarsFileNotFound _ | InvalidEnvLine _
  | EmptyEnvKey _ | AttachmentsNotDirectory _ | UnsupportedExtension _ => true
  | InvalidOutputVar _ | CommandNotFound _ => false
  end.

(** The working directory [cmd_run] uses. *)
Definition chosen_workdir (h : Host) (args : Namespace) (w : World) : Path :=
  match args_workdir args with
  | Some d => resolve h d
  | None => mkdtemp h w
  end.

(** The world once the working directory exists. *)
Definition after_workdir (h : Host) (args : Namespace) (w : World) : World :=
  let w0 :=
    match args_workdir args with
    | Some _ => w
    | None => {| dirs := dirs w ∪ {[ mkdtemp h w ]};
                 files := files w; spawned := spawned w |}
    end in
  {| dirs := dirs w0
             ∪ list_to_set (ancestors_and_self (chosen_workdir h args w));
     files := files w0; spawned := spawned w0 |}.

(** ** Sample texts, host and world *)

Definition unlines (l : list string) : str :=
  flat_map (fun s => lit s ++ [LF]) l.

Definition sample_ok : str :=
  unlines ["<-Start Diagnostic->"; "checking"; "<-End Diagnostic->";
           "<-Start Result->"; "Status=OK: all good"; "<-End Result->"].

Definition sample_two_starts : str :=
  unlines ["<-Start Diagnostic->"; "<-Start Diagnostic->";
           "<-End Diagnostic->"; "<-Start Result->"; "Status=OK";
           "<-End Result->"].

Definition sample_out_of_order : str :=
  unlines ["<-Start Diagnostic->"; "<-Start Result->"; "Status= OK";
           "extra"; "<-End Diagnostic->"; "<-End Result->"].

Definition sample_extra_line : str :=
  unlines ["<-Start Diagnostic->"; "checking"; "<-End Diagnostic->";
           "<-Start Result->"; "Status=OK"; "note: all good";
           "<-End Result->"].

Definition sample_space_after_eq : str :=
  unlines ["<-Start Diagnostic->"; "checking"; "<-End Diagnostic->";
           "<-Start Result->"; "Status= OK: all good"; "<-End Result->"].

Definition sample_indented : str :=
  unlines ["  <-Start Diagnostic->"; "checking"; "<-End Diagnostic->  ";
           "<-Start Result->"; "  Status=OK"; "<-End Result->"].

Definition encode (s : str) : bytes :=
  map (fun c => match Byte.of_N c with Some b => b | None => Byte.x3f end) s.

(** A host whose interpreter prints [out] and exits with [returncode]. *)
Definition sample_host (out : str) (returncode : Z) : Host :=
  {| REPO_ROOT := ["/"; "repo"];
     resolve := fun p => p;
     environ := ∅;
     mkdtemp := fun _ => ["/"; "tmp"; "rmm-run-0"];
     decode_utf8 := fun b => Some (map Byte.to_N b);
     decode_utf8_replace := fun b => map Byte.to_N b;
     shlex_split := fun _ => None;
     child := fun _ _ _ _ => Some (returncode, encode out, []) |}.

Definition sample_world : World :=
  {| dirs := {[ ["/"]; ["/"; "repo"]; ["/"; "att"] ]};
     files := {[ ["/"; "repo"; "components"; "Scripts"; "report.txt"] := [];
                 ["/"; "repo"; "components"; "Scripts"; "report.sh"] := [];
                 ["/"; "repo"; "components"; "Monitors"; "disk.sh"] := [];
                 ["/"; "repo"; "broken.env"] := encode (lit "NOEQUALS");
                 ["/"; "att"; "tool.bin"] := [Byte.x01] ]};
     spawned := [] |}.

Definition sample_args (script : Path) : Namespace :=
  {| args_script := script;
     args_vars := None;
     args_workdir := Some ["/"; "work"];
     args_attachments := Some ["/"; "att"];
     args_validate_monitor := false;
     args_output_var := lit "Status" |}.

Definition sample_monitor : Path := ["components"; "Monitors"; "disk.sh"].
Definition sample_script : Path := ["components"; "Scripts"; "report.sh"].
Definition sample_text_file : Path := ["components"; "Scripts"; "report.txt"].

(** What [cmd_run_prepare] returns for the sample monitor. *)
Definition sample_prepared : Prepared :=
  {| script_path := ["/"; "repo"; "components"; "Monitors"; "disk.sh"];
     workdir := ["/"; "work"];
     env := ∅;
     cmd := ["bash"; "/repo/components/Monitors/disk.sh"] |}.

Definition sample_after_prepare (h : Host) (args : Namespace) : World :=
  snd (cmd_run_prepare h args sample_world).

Definition sample_after_spawn (h : Host) (args : Namespace) : World :=
  snd (cmd_run_spawn h sample_prepared (sample_after_prepare h args)).

(** ** The rest of the script: further vocabulary and samples *)

(** [check_result_block] with [ln is not matching[0]] read as
    [ln != matching[0]]: the lines are compared by value. *)
Definition check_result_block_by_value (non_empty : list line)
    (output_var : str) : MonitorValidationResult :=
  match non_empty with
  | [] => invalid [empty_error]
  | _ :: _ =>
      let matching :=
        List.filter (fun ln => pattern_match output_var (snd ln)) non_empty in
      if negb (length matching =? 1) then
        invalid [match_count_error output_var (length matching); example_error]
      else
        let m0 := hd (0, []) matching in
        let other_lines :=
          List.filter (fun ln => negb (bool_decide (snd ln = snd m0)))
            non_empty in
        match other_lines with
        | _ :: _ =>
            invalid [one_line_error; extra_lines_error (map snd other_lines)]
        | [] =>
            let value := drop (length output_var + 1) (snd m0) in
            if isspace (take 1 value) then invalid [spaces_error]
            else {| ok := true; errors := [] |}
        end
  end.

Definition sample_empty_block : str :=
  unlines ["<-Start Diagnostic->"; "checking"; "<-End Diagnostic->";
           "<-Start Result->"; "   "; "<-End Result->"].

Definition sample_twice : str :=
  unlines ["<-Start Diagnostic->"; "checking"; "<-End Diagnostic->";
           "<-Start Result->"; "Status=OK"; "Status=OK"; "<-End Result->"].

(** [s] has no whitespace at either end. *)
Definition trimmed (s : str) : Prop := strip s = s.

(** The sign [=]. *)
Definition EQUALS : N := 61%N.


(** The double quote. *)
Definition DQUOTE : N := 34%N.

(** ** [cmd_validate_monitor_output] and more of [cmd_run] *)

(** The command line [cmd_run] builds for a script. *)
Definition command_line (script_path : Path) : option (list string) :=
  if String.eqb (lower (suffix script_path)) ".ps1" then
    Some ["pwsh"; "-NoProfile"; "-NonInteractive"; "-ExecutionPolicy";
          "Bypass"; "-File"; path_str script_path]
  else if String.eqb (lower (suffix script_path)) ".sh" then
    Some ["bash"; path_str script_path]
  else None.

(** [cmd_validate_monitor_output]: [input] is [None] for [--input -],
    and [stdin] is then what [sys.stdin.read()] returns. *)
Definition cmd_validate_monitor_output (h : Host) (stdin : str)
    (input : option Path) (output_var : str) : M Z :=
  text <- match input with
          | None => ret stdin
          | Some path =>
              content <- read_bytes path ;;
              ret (decode_utf8_replace h content)
          end ;;
  result <- lift (validate_monitor_output text output_var) ;;
  if ok result then ret 0%Z else ret 2%Z.

(** A host without the interpreter. *)
Definition sample_host_bare : Host :=
  {| REPO_ROOT := ["/"; "repo"];
     resolve := fun p => p;
     environ := {[ lit "HOME" := lit "/root"; lit "MODE" := lit "slow" ]};
     mkdtemp := fun _ => ["/"; "tmp"; "rmm-run-0"];
     decode_utf8 := fun b => Some (map Byte.to_N b);
     decode_utf8_replace := fun b => map Byte.to_N b;
     shlex_split := fun _ => None;
     child := fun _ _ _ _ => None |}.

Definition sample_world_vars : World :=
  {| dirs := {[ ["/"]; ["/"; "repo"] ]};
     files := {[ ["/"; "repo"; "components"; "Scripts"; "report.sh"] := [];
                 ["/"; "repo"; "run.env"] := encode (lit "MODE=fast") ]};
     spawned := [] |}.

Definition sample_args_vars : Namespace :=
  {| args_script := sample_script;
     args_vars := Some ["/"; "repo"; "run.env"];
     args_workdir := Some ["/"; "work"];
     args_attachments := None;
     args_validate_monitor := false;
     args_output_var := lit "Status" |}.

Definition sample_prepared_vars : Prepared :=
  {| script_path := ["/"; "repo"; "components"; "Scripts"; "report.sh"];
     workdir := ["/"; "work"];
     env := {[ lit "MODE" := lit "fast" ]}
            ∪ {[ lit "HOME" := lit "/root"; lit "MODE" := lit "slow" ]};
     cmd := ["bash"; "/repo/components/Scripts/report.sh"] |}.

(** ** [normalize_kebab] and the paths of [scaffold] *)

(** The [RmmError]s of the [scaffold] command, one constructor per
    [raise]; they are kept apart from those of [run]. *)
Inductive ScaffoldError :=
| InvalidName (raw : str)
| UnknownCategory (category : string)
| UnknownOS (os_name : string)
| TemplateNotFound (tmpl_path : Path)
| RefusingToOverwrite (dest : Path)
| BadOutputVar (e : RmmError).

(** What a call of the [scaffold] command does. *)
Inductive outcome (A : Type) :=
| Returns (a : A)
| Raises (e : ScaffoldError)
| Crashes (what : string).
Arguments Returns {A} a.
Arguments Raises {A} e.
Arguments Crashes {A} what.

Definition HYPHEN : N := 45%N.

(** The class [[a-z0-9]]. *)
Definition is_lower_alnum (c : N) : bool :=
  ((97 <=? c) && (c <=? 122) || (48 <=? c) && (c <=? 57))%N.

(** How [str.lower()] maps a character outside ASCII: it depends on the
    Unicode tables and, for the capital sigma, on the whole string and
    the position; the result may hold several characters. *)
Abbreviation lowering := (str -> nat -> N -> list N).

(** [s.lower()] from position [i] of [whole]: an ASCII capital becomes
    the small letter, other ASCII characters stay. *)
Fixpoint lower_from (unicode_lower : lowering) (whole : str) (i : nat)
    (s : str) : str :=
  match s with
  | [] => []
  | c :: r =>
      (if (c <? 128)%N then
         [if (65 <=? c)%N && (c <=? 90)%N then (c + 32)%N else c]
       else unicode_lower whole i c)
      ++ lower_from unicode_lower whole (S i) r
  end.

Definition str_lower (unicode_lower : lowering) (s : str) : str :=
  lower_from unicode_lower s 0 s.

(** [re.sub(r"[^a-z0-9]+", "-", s)]: every maximal run of other
    characters becomes one hyphen; [in_run] tells that the run has
    begun. *)
Fixpoint sub_non_alnum (in_run : bool) (s : str) : str :=
  match s with
  | [] => []
  | c :: r =>
      if is_lower_alnum c then c :: sub_non_alnum false r
      else if in_run then sub_non_alnum true r
      else HYPHEN :: sub_non_alnum true r
  end.

(** [re.sub(r"-{2,}", "-", s)]: every run of two or more hyphens becomes
    one hyphen; [in_run] tells that the previous character was a
    hyphen. *)
Fixpoint sub_hyphens (in_run : bool) (s : str) : str :=
  match s with
  | [] => []
  | c :: r =>
      if (c =? HYPHEN)%N then
        if in_run then sub_hyphens true r else HYPHEN :: sub_hyphens true r
      else c :: sub_hyphens false r
  end.

(** [s.strip(chars)] *)
Definition strip_chars (chars s : str) : str :=
  rstrip_chars chars (lstrip_chars chars s).

Definition normalize_kebab (unicode_lower : lowering) (raw : str)
  : outcome str :=
  let value := str_lower unicode_lower (strip raw) in
  let value := sub_non_alnum false value in
  let value := strip_chars [HYPHEN] value in
  let value := sub_hyphens false value in
  match value with
  | [] => Raises (InvalidName raw)
  | _ => Returns value
  end.

(** No two hyphens side by side. *)
Definition no_double_hyphen (s : str) : Prop :=
  forall l1 l2, s <> l1 ++ HYPHEN :: HYPHEN :: l2.

(** A lowering that maps every character outside ASCII to itself. *)
Definition sample_lowering : lowering := fun _ _ c => [c].

(** [a-z0-9] or a hyphen. *)
Definition kebab_char (c : N) : Prop :=
  is_lower_alnum c = true \/ c = HYPHEN.

(** No two hyphens side by side in [s], and no hyphen at its start when
    [after_hyphen] is set. *)
Fixpoint single_hyphens (after_hyphen : bool) (s : str) : bool :=
  match s with
  | [] => true
  | c :: r =>
      if (c =? HYPHEN)%N then negb after_hyphen && single_hyphens true r
      else single_hyphens false r
  end.

(** A name made of ASCII characters, as a path component. *)
Definition ascii_string (s : str) : string :=
  string_of_list_ascii (map ascii_of_N s).

Definition category_dir (category : string) : outcome string :=
  if String.eqb category "applications" then Returns "Applications"%string
  else if String.eqb category "scripts" then Returns "Scripts"%string
  else if String.eqb category "monitors" then Returns "Monitors"%string
  else Raises (UnknownCategory category).

Definition os_dir (os_name : string) : outcome string :=
  if String.eqb os_name "windows" then Returns "Windows"%string
  else if String.eqb os_name "macos" then Returns "macOS"%string
  else if String.eqb os_name "linux" then Returns "Linux"%string
  else Raises (UnknownOS os_name).

(** [SKILL_ROOT / "assets" / "templates"]: the script lies in
    [skills/datto-rmm-component-dev/scripts] under the repository
    root. *)
Definition TEMPLATES_DIR (repo_root : Path) : Path :=
  repo_root ++ ["skills"; "datto-rmm-component-dev"; "assets"; "templates"].

(** [template_path]: a category outside the three is a [KeyError]. *)
Definition template_path (repo_root : Path) (os_name category : string)
  : outcome Path :=
  let pick (applications scripts monitors : string) :=
    if String.eqb category "applications"
    then Returns (TEMPLATES_DIR repo_root ++ [applications])
    else if String.eqb category "scripts"
    then Returns (TEMPLATES_DIR repo_root ++ [scripts])
    else if String.eqb category "monitors"
    then Returns (TEMPLATES_DIR repo_root ++ [monitors])
    else Crashes "KeyError" in
  if String.eqb os_name "windows" then
    pick "powershell-application.ps1.tmpl"%string
         "powershell-script.ps1.tmpl"%string
         "powershell-monitor.ps1.tmpl"%string
  else
    pick "bash-application.sh.tmpl"%string
         "bash-script.sh.tmpl"%string
         "bash-monitor.sh.tmpl"%string.

(** [destination_path]; [filename] is one path component, as every name
    [normalize_kebab] returns is. *)
Definition destination_path (repo_root : Path) (os_name category : string)
    (filename : str) : outcome Path :=
  match category_dir category with
  | Returns cat_dir =>
      if String.eqb os_name "windows" then
        Returns (repo_root ++ ["components"; cat_dir;
                               ascii_string filename +:+ ".ps1"])
      else if String.eqb os_name "macos" then
        Returns (repo_root ++ ["components"; cat_dir; "macOS";
                               ascii_string filename +:+ ".sh"])
      else if String.eqb os_name "linux" then
        Returns (repo_root ++ ["components"; cat_dir; "Linux";
                               ascii_string filename +:+ ".sh"])
      else Raises (UnknownOS os_name)
  | Raises e => Raises e
  | Crashes what => Crashes what
  end.


(** ** [render_template] *)

Definition LBRACE : N := 123%N.
Definition RBRACE : N := 125%N.

(** [s.replace(old, new)], left to right without overlap; [skip] counts
    the characters of a replaced occurrence that are still to pass. *)
Fixpoint replace_from (old new : str) (skip : nat) (s : str) : str :=
  match s with
  | [] => match old with [] => new | _ => [] end
  | c :: r =>
      match skip with
      | S k => replace_from old new k r
      | O =>
          if startswith old s
          then new ++ replace_from old new (length old - 1) r
          else c :: replace_from old new 0 r
      end
  end.

Definition str_replace (old new s : str) : str := replace_from old new 0 s.

(** [f"{{{{{key}}}}}"]: the key between two pairs of braces. *)
Definition placeholder (key : str) : str :=
  [LBRACE; LBRACE] ++ key ++ [RBRACE; RBRACE].

(** [render_template]; the dictionary is the list of its items in
    insertion order. *)
Fixpoint render_template (template_text : str)
    (substitutions : list (str * str)) : str :=
  match substitutions with
  | [] => template_text
  | (key, value) :: rest =>
      render_template (str_replace (placeholder key) value template_text) rest
  end.

(** A template cut into plain text and placeholders. *)
Inductive segment :=
| Text (t : str)
| Hole (key : str).

Definition segment_text (seg : segment) : str :=
  match seg with
  | Text t => t
  | Hole key => placeholder key
  end.

Definition template_of (segs : list segment) : str :=
  flat_map segment_text segs.

(** [substitutions.get(key)], the first item with that key. *)
Fixpoint first_value (key : str) (substitutions : list (str * str))
  : option str :=
  match substitutions with
  | [] => None
  | (k, value) :: rest =>
      if bool_decide (k = key) then Some value else first_value key rest
  end.

(** A placeholder with a value becomes the value. *)
Definition fill (substitutions : list (str * str)) (seg : segment) : segment :=
  match seg with
  | Text t => Text t
  | Hole key =>
      match first_value key substitutions with
      | Some value => Text value
      | None => Hole key
      end
  end.

Definition no_lbrace (s : str) : Prop := ~ In LBRACE s.
Definition no_brace (s : str) : Prop := ~ In LBRACE s /\ ~ In RBRACE s.

(** Plain text without an opening brace, keys without braces. *)
Definition plain_segment (seg : segment) : Prop :=
  match seg with
  | Text t => no_lbrace t
  | Hole key => no_brace key
  end.

Definition plain_item (item : str * str) : Prop :=
  no_brace (fst item) /\ no_lbrace (snd item).

(** ** [cmd_scaffold] *)

(** Calls of the [scaffold] command that read or change the world. *)
Definition S (A : Type) : Type := World -> outcome A * World.

Definition retS {A} (a : A) : S A := fun w => (Returns a, w).
Definition raiseS {A} (e : ScaffoldError) : S A := fun w => (Raises e, w).
Definition pure {A} (r : outcome A) : S A := fun w => (r, w).

Definition bindS {A B} (m : S A) (k : A -> S B) : S B :=
  fun w =>
    match m w with
    | (Returns a, w') => k a w'
    | (Raises e, w') => (Raises e, w')
    | (Crashes what, w') => (Crashes what, w')
    end.

Notation "x <~ m ;; k" := (bindS m (fun x => k))
  (at level 100, m at next level, right associativity).

(** A call of the [run] side inside [scaffold]. *)
Definition of_result {A} (r : result A) : outcome A :=
  match r with
  | Ok a => Returns a
  | Raise e => Raises (BadOutputVar e)
  | Uncaught what => Crashes what
  end.

Definition liftS {A} (m : M A) : S A :=
  fun w => let (r, w') := m w in (of_result r, w').

(** [p.parent] *)
Definition parent (p : Path) : Path :=
  match p with
  | [root] => if String.eqb root "/" then p else []
  | _ => removelast p
  end.

(** [ensure_parent_dir] *)
Definition ensure_parent_dir (path : Path) (dry_run : bool) : M unit :=
  if dry_run then ret tt else mkdir (parent path).

(** [p.write_text(text, encoding="utf-8")]: the file is opened, and so
    emptied, before the text is encoded; [None] from the encoder is
    [UnicodeEncodeError]. *)
Definition write_text (encode_utf8 : str -> option bytes) (p : Path)
    (text : str) : M unit :=
  open_wb p ;;;
  fun w =>
    match encode_utf8 text with
    | Some content =>
        (Ok tt, {| dirs := dirs w; files := <[p := content]> (files w);
                   spawned := spawned w |})
    | None => (Uncaught "UnicodeEncodeError", w)
    end.

(** [p.chmod(mode)]: [World] holds no file modes, so nothing changes;
    the file must exist. *)
Definition chmod (p : Path) : M unit :=
  fun w =>
    if exists_ p w then (Ok tt, w) else (Uncaught "FileNotFoundError", w).

(** The parsed command line of [scaffold]. *)
Record ScaffoldArgs := {
  scaffold_os : string;
  scaffold_category : string;
  scaffold_name : str;
  scaffold_output_var : str;
  scaffold_version : str;
  scaffold_force : bool;
  scaffold_dry_run : bool
}.

(** The dictionary [subs], in insertion order. *)
Definition scaffold_subs (raw_name filename : str) (category_dir os_dir : string)
    (output_var version : str) : list (str * str) :=
  [(lit "NAME", match strip raw_name with [] => filename | name => name end);
   (lit "FILENAME", filename);
   (lit "CATEGORY", lit category_dir);
   (lit "OS", lit os_dir);
   (lit "OUTPUT_VAR", output_var);
   (lit "VERSION", version)].

Definition cmd_scaffold (h : Host) (unicode_lower : lowering)
    (encode_utf8 : str -> option bytes) (args : ScaffoldArgs) : S Z :=
  let os_name := scaffold_os args in
  let category := scaffold_category args in
  let raw_name := scaffold_name args in
  filename <~ pure (normalize_kebab unicode_lower raw_name) ;;
  output_var <~ (if String.eqb category "monitors"
                 then pure (of_result
                              (validate_output_var (scaffold_output_var args)))
                 else retS (scaffold_output_var args)) ;;
  dest <~ pure (destination_path (REPO_ROOT h) os_name category filename) ;;
  tmpl_path <~ pure (template_path (REPO_ROOT h) os_name category) ;;
  tmpl_found <~ (fun w => (Returns (exists_ tmpl_path w), w)) ;;
  if negb tmpl_found then raiseS (TemplateNotFound tmpl_path)
  else
    dest_found <~ (fun w => (Returns (exists_ dest w), w)) ;;
    if dest_found && negb (scaffold_force args)
    then raiseS (RefusingToOverwrite dest)
    else
      cat_dir <~ pure (category_dir category) ;;
      os <~ pure (os_dir os_name) ;;
      let subs := scaffold_subs raw_name filename cat_dir os output_var
                    (scaffold_version args) in
      content <~ liftS (read_bytes tmpl_path) ;;
      match decode_utf8 h content with
      | None => pure (Crashes "UnicodeDecodeError")
      | Some template_text =>
          let rendered := render_template template_text subs in
          if scaffold_dry_run args then retS 0%Z
          else
            _ <~ liftS (ensure_parent_dir dest false) ;;
            _ <~ liftS (write_text encode_utf8 dest rendered) ;;
            _ <~ (if String.eqb (suffix dest) ".sh"
                  then liftS (chmod dest) else retS tt) ;;
            retS 0%Z
      end.

(** [main], for the [scaffold] sub-command: an [RmmError] becomes exit
    code 1. *)
Definition main_scaffold (h : Host) (unicode_lower : lowering)
    (encode_utf8 : str -> option bytes) (args : ScaffoldArgs) (w : World)
  : outcome Z * World :=
  match cmd_scaffold h unicode_lower encode_utf8 args w with
  | (Raises _, w') => (Returns 1%Z, w')
  | other => other
  end.

Definition sample_template : Path :=
  ["/"; "repo"; "skills"; "datto-rmm-component-dev"; "assets"; "templates";
   "bash-monitor.sh.tmpl"].

Definition sample_scaffold_world : World :=
  {| dirs := {[ ["/"]; ["/"; "repo"] ]};
     files := {[ sample_template
                 := encode (lit "# {{NAME}} ({{FILENAME}}) {{OUTPUT_VAR}}");
                 ["/"; "repo"; "components"; "Monitors"; "Linux"; "old.sh"]
                 := encode (lit "keep me") ]};
     spawned := [] |}.

Definition sample_scaffold_args (raw_name : str) (dry_run : bool)
  : ScaffoldArgs :=
  {| scaffold_os := "linux";
     scaffold_category := "monitors";
     scaffold_name := raw_name;
     scaffold_output_var := lit "Status";
     scaffold_version := lit "0.1.0";
     scaffold_force := false;
     scaffold_dry_run := dry_run |}.

Definition sample_encoder (s : str) : option bytes := Some (encode s).

(** * Properties *)

(** ** The sample of the specification *)

Example sample_ok_valid :
  validate_monitor_output sample_ok (lit "Status")
  = Ok {| ok := true; errors := [] |}.
Proof. vm_compute. reflexivity. Qed.

(** ** Shape of a result *)

Lemma count_errors_nil a b c d :
  count_errors a b c d = []
  <-> length a = 1 /\ length b = 1 /\ length c = 1 /\ length d = 1.
Proof.
  unfold count_errors.
  destruct (Nat.eqb_spec (length a) 1), (Nat.eqb_spec (length b) 1),
    (Nat.eqb_spec (length c) 1), (Nat.eqb_spec (length d) 1);
    simpl; split; intros H; try discriminate; try tauto.
Qed.

Lemma check_result_block_shape block output_var :
  let r := check_result_block block output_var in
  (ok r = true /\ errors r = []) \/ (ok r = false /\ errors r <> []).
Proof.
  unfold check_result_block.
  repeat case_match; simpl; auto.
Qed.

Lemma validate_lines_shape lines output_var :
  let r := validate_lines lines output_var in
  (ok r = true /\ errors r = []) \/ (ok r = false /\ errors r <> []).
Proof.
  unfold validate_lines.
  destruct (count_errors _ _ _ _) eqn:E.
  - destruct (negb _).
    + right. simpl. auto.
    + apply check_result_block_shape.
  - right. simpl. auto.
Qed.

(** C2: whenever the validator returns a result (it did not raise on the
    name), [ok = true] comes with an empty error list and [ok = false]
    with at least one error. *)
Theorem validation_result_invariant (text output_var : str)
    (r : MonitorValidationResult) :
  validate_monitor_output text output_var = Ok r ->
  (ok r = true -> errors r = []) /\ (ok r = false -> errors r <> []).
Proof.
  unfold validate_monitor_output, bind.
  destruct (validate_output_var output_var) as [name| |]; try discriminate.
  intros [= <-].
  destruct (validate_lines_shape (enumerate (splitlines text)) name)
    as [[Hok Herr]|[Hok Herr]]; split; intros H; congruence.
Qed.

Lemma validation_result_invariant_witness :
  (ok (invalid [empty_error]) = true -> errors (invalid [empty_error]) = [])
  /\ (ok (invalid [empty_error]) = false
      -> errors (invalid [empty_error]) <> []).
Proof.
  apply (validation_result_invariant
           (unlines ["<-Start Diagnostic->"; "<-End Diagnostic->";
                     "<-Start Result->"; "<-End Result->"])
           (lit "Status")).
  vm_compute. reflexivity.
Defined.

(** ** The count stage *)

Lemma count_errors_markers lines :
  count_errors (find_all lines "<-Start Diagnostic->")
    (find_all lines "<-End Diagnostic->")
    (find_all lines "<-Start Result->")
    (find_all lines "<-End Result->")
  = flat_map (fun m => if length (find_all lines m) =? 1 then []
                       else [expected_one m]) markers.
Proof.
  unfold count_errors, markers. cbn [flat_map].
  repeat destruct (length _ =? 1); reflexivity.
Qed.

Lemma validate_lines_count_stage lines output_var :
  count_errors (find_all lines "<-Start Diagnostic->")
    (find_all lines "<-End Diagnostic->")
    (find_all lines "<-Start Result->")
    (find_all lines "<-End Result->") <> [] ->
  validate_lines lines output_var
  = invalid (flat_map (fun m => if length (find_all lines m) =? 1 then []
                                else [expected_one m]) markers).
Proof.
  intros Hne. unfold validate_lines.
  rewrite <- count_errors_markers.
  destruct (count_errors _ _ _ _); [contradiction | reflexivity].
Qed.

(** C3: with a name that passes the name check, a text in which some
    marker does not occur exactly once fails with the count errors of
    exactly the markers whose count is not one, in marker order, and
    nothing else; two Start-Diagnostic lines with the other markers once
    each give the Start-Diagnostic error alone. *)
Theorem count_stage_reports_every_marker (text output_var name : str) :
  validate_output_var output_var = Ok name ->
  (exists m, In m markers /\ marker_count text m <> 1) ->
  validate_monitor_output text output_var
  = Ok (invalid (flat_map (fun m => if marker_count text m =? 1 then []
                                    else [expected_one m]) markers))
  /\ (marker_count text "<-Start Diagnostic->" = 2 ->
      marker_count text "<-End Diagnostic->" = 1 ->
      marker_count text "<-Start Result->" = 1 ->
      marker_count text "<-End Result->" = 1 ->
      validate_monitor_output text output_var
      = Ok (invalid [expected_one "<-Start Diagnostic->"])).
Proof.
  intros Hname [m [Hm Hcount]].
  assert (Hv : validate_monitor_output text output_var
               = Ok (invalid (flat_map
                       (fun m => if marker_count text m =? 1 then []
                                 else [expected_one m]) markers))).
  { unfold validate_monitor_output. rewrite Hname. unfold bind.
    f_equal. apply validate_lines_count_stage.
    rewrite count_errors_nil. intros (H1 & H2 & H3 & H4).
    unfold marker_count in Hcount.
    unfold markers in Hm. simpl in Hm.
    destruct Hm as [<-|[<-|[<-|[<-|[]]]]]; contradiction. }
  split; [exact Hv|].
  intros H1 H2 H3 H4. rewrite Hv.
  unfold markers. cbn [flat_map]. rewrite H1, H2, H3, H4. reflexivity.
Qed.

Lemma count_stage_reports_every_marker_witness :
  validate_monitor_output sample_two_starts (lit " Status ")
  = Ok (invalid [expected_one "<-Start Diagnostic->"]).
Proof.
  refine (proj2 (count_stage_reports_every_marker sample_two_starts
                   (lit " Status ") (lit "Status") _ _) _ _ _ _).
  - vm_compute. reflexivity.
  - exists "<-Start Diagnostic->". split; [left; reflexivity|].
    vm_compute. lia.
  - vm_compute. reflexivity.
  - vm_compute. reflexivity.
  - vm_compute. reflexivity.
  - vm_compute. reflexivity.
Defined.

Example count_stage_three_missing :
  validate_monitor_output (unlines ["<-Start Result->"; "Status=OK"])
    (lit "Status")
  = Ok (invalid [expected_one "<-Start Diagnostic->";
                 expected_one "<-End Diagnostic->";
                 expected_one "<-End Result->"]).
Proof. vm_compute. reflexivity. Qed.

(** ** The ordering stage *)

Lemma validate_lines_counted lines output_var ds de rs re_ :
  find_all lines "<-Start Diagnostic->" = [ds] ->
  find_all lines "<-End Diagnostic->" = [de] ->
  find_all lines "<-Start Result->" = [rs] ->
  find_all lines "<-End Result->" = [re_] ->
  validate_lines lines output_var
  = if negb ((ds <? de) && (de <? rs) && (rs <? re_))
    then invalid [order_error]
    else check_result_block (non_empty (result_lines lines rs re_)) output_var.
Proof.
  intros H1 H2 H3 H4. unfold validate_lines.
  rewrite H1, H2, H3, H4. reflexivity.
Qed.

(** C4: with a name that passes the name check, when each marker is on
    exactly one line (at [ds], [de], [rs], [re_]) and these indices are
    not strictly increasing, the result is the ordering error alone,
    whatever the other lines hold. *)
Theorem order_stage_single_error (text output_var name : str)
    (ds de rs re_ : nat) :
  validate_output_var output_var = Ok name ->
  find_all (enumerate (splitlines text)) "<-Start Diagnostic->" = [ds] ->
  find_all (enumerate (splitlines text)) "<-End Diagnostic->" = [de] ->
  find_all (enumerate (splitlines text)) "<-Start Result->" = [rs] ->
  find_all (enumerate (splitlines text)) "<-End Result->" = [re_] ->
  ~ (ds < de /\ de < rs /\ rs < re_) ->
  validate_monitor_output text output_var = Ok (invalid [order_error]).
Proof.
  intros Hname H1 H2 H3 H4 Hord.
  unfold validate_monitor_output. rewrite Hname. unfold bind. f_equal.
  rewrite (validate_lines_counted _ _ _ _ _ _ H1 H2 H3 H4).
  destruct (_ && _) eqn:E; [|reflexivity].
  exfalso. apply Hord.
  apply andb_prop in E as [E E3]. apply andb_prop in E as [E1 E2].
  apply Nat.ltb_lt in E1, E2, E3. auto.
Qed.

Lemma order_stage_single_error_witness :
  validate_monitor_output sample_out_of_order (lit "Status")
  = Ok (invalid [order_error]).
Proof.
  apply (order_stage_single_error sample_out_of_order (lit "Status")
           (lit "Status") 0 4 1 5).
  - vm_compute. reflexivity.
  - vm_compute. reflexivity.
  - vm_compute. reflexivity.
  - vm_compute. reflexivity.
  - vm_compute. reflexivity.
  - lia.
Defined.

(** ** Character classes and trimming *)

Ltac class_props :=
  unfold is_word_char, is_space, is_linebreak, LF, CR in *;
  rewrite ?orb_true_iff, ?andb_true_iff, ?N.leb_le, ?N.eqb_eq in *.

Lemma word_char_not_space c : is_word_char c = true -> is_space c = false.
Proof.
  intros Hw. apply not_true_is_false. intros Hs. class_props. lia.
Qed.

Lemma linebreak_is_space c : is_linebreak c = true -> is_space c = true.
Proof. intros H. class_props. lia. Qed.

Lemma LF_is_linebreak : is_linebreak LF = true.
Proof. reflexivity. Qed.

Lemma lstrip_spaces ws s :
  Forall (fun c => is_space c = true) ws -> lstrip (ws ++ s) = lstrip s.
Proof.
  induction 1 as [|c ws Hc _ IH]; simpl; [reflexivity|].
  rewrite Hc. exact IH.
Qed.

Lemma rstrip_spaces s ws :
  Forall (fun c => is_space c = true) ws -> rstrip (s ++ ws) = rstrip s.
Proof.
  intros H. unfold rstrip. rewrite rev_app_distr, lstrip_spaces; [reflexivity|].
  apply Forall_rev. exact H.
Qed.

Lemma rstrip_snoc s c : is_space c = false -> rstrip (s ++ [c]) = s ++ [c].
Proof.
  intros H. unfold rstrip. rewrite rev_app_distr. simpl. rewrite H.
  change (c :: rev s) with ([c] ++ rev s).
  rewrite rev_app_distr, rev_involutive. reflexivity.
Qed.

(** Trimming removes exactly the surrounding whitespace of a string that
    starts and ends with other characters. *)
Lemma strip_padded ws1 ws2 a mid b :
  Forall (fun c => is_space c = true) ws1 ->
  Forall (fun c => is_space c = true) ws2 ->
  is_space a = false -> is_space b = false ->
  (strip (ws1 ++ [a] ++ ws2) = [a])
  /\ (strip (ws1 ++ (a :: mid ++ [b]) ++ ws2) = a :: mid ++ [b]).
Proof.
  intros H1 H2 Ha Hb. unfold strip. split.
  - rewrite lstrip_spaces by exact H1. simpl. rewrite Ha.
    change (a :: ws2) with ([a] ++ ws2).
    rewrite rstrip_spaces by exact H2. apply (rstrip_snoc []). exact Ha.
  - rewrite lstrip_spaces by exact H1. simpl. rewrite Ha.
    change (a :: (mid ++ [b]) ++ ws2) with ((a :: mid ++ [b]) ++ ws2).
    rewrite rstrip_spaces by exact H2.
    apply (rstrip_snoc (a :: mid)). exact Hb.
Qed.

Lemma nonempty_ends (s : str) :
  s <> [] -> (exists a, s = [a]) \/ (exists a mid b, s = a :: mid ++ [b]).
Proof.
  destruct s as [|a s]; [congruence|]. intros _.
  destruct (rev s) as [|b r] eqn:E.
  - left. exists a. apply (f_equal (@rev N)) in E.
    rewrite rev_involutive in E. subst. reflexivity.
  - right. exists a, (rev r), b. apply (f_equal (@rev N)) in E.
    rewrite rev_involutive in E. subst. reflexivity.
Qed.

Lemma strip_padded_nonspace ws1 core ws2 :
  Forall (fun c => is_space c = true) ws1 ->
  Forall (fun c => is_space c = true) ws2 ->
  core <> [] ->
  Forall (fun c => is_space c = false) core ->
  strip (ws1 ++ core ++ ws2) = core.
Proof.
  intros H1 H2 Hne Hcore.
  destruct (nonempty_ends core Hne) as [[a ->]|(a & mid & b & ->)].
  - apply (strip_padded ws1 ws2 a [] a); auto;
      inversion Hcore; assumption.
  - apply (strip_padded ws1 ws2 a mid b); auto.
    + inversion Hcore; assumption.
    + rewrite List.Forall_forall in Hcore. apply Hcore.
      right. apply in_or_app. right. left. reflexivity.
Qed.

(** ** The name check *)

Lemma fullmatch_word_plus_spec s :
  fullmatch_word_plus s = true
  <-> s <> [] /\ Forall (fun c => is_word_char c = true) s.
Proof.
  induction s as [|c r IH]; simpl.
  - split; [discriminate | intros [H _]; congruence].
  - rewrite andb_true_iff. destruct r as [|d r'].
    + split.
      * intros [Hc _]. split; [discriminate | repeat constructor; exact Hc].
      * intros [_ H]. inversion H. auto.
    + rewrite IH. split.
      * intros [Hc [_ Hr]]. split; [discriminate | constructor; assumption].
      * intros [_ H]. inversion H; subst. repeat split; [assumption|discriminate|assumption].
Qed.

Lemma validate_output_var_Ok output_var name :
  validate_output_var output_var = Ok name ->
  name = strip output_var
  /\ name <> [] /\ Forall (fun c => is_word_char c = true) name.
Proof.
  unfold validate_output_var.
  destruct (fullmatch_word_plus (strip output_var)) eqn:E; [|discriminate].
  intros [= <-]. apply fullmatch_word_plus_spec in E. tauto.
Qed.

(** C9: the name is trimmed before it is checked.  A name made of
    surrounding whitespace and a non-empty core of letters, digits and
    underscores is accepted and the text is validated with the core, as
    if the core had been given; a name whose trimmed form is empty or
    holds any other character makes the validator raise [RmmError]
    instead of returning a result. *)
Theorem output_var_trimmed_then_checked (text output_var : str) :
  (forall ws1 core ws2,
      output_var = ws1 ++ core ++ ws2 ->
      Forall (fun c => is_space c = true) ws1 ->
      Forall (fun c => is_space c = true) ws2 ->
      core <> [] ->
      Forall (fun c => is_word_char c = true) core ->
      validate_monitor_output text output_var
      = Ok (validate_lines (enumerate (splitlines text)) core)
      /\ validate_monitor_output text output_var
         = validate_monitor_output text core)
  /\ (~ (strip output_var <> []
         /\ Forall (fun c => is_word_char c = true) (strip output_var)) ->
      validate_monitor_output text output_var
      = Raise (InvalidOutputVar (strip output_var))).
Proof.
  split.
  - intros ws1 core ws2 -> H1 H2 Hne Hcore.
    assert (Hns : Forall (fun c => is_space c = false) core).
    { eapply List.Forall_impl; [|exact Hcore]. apply word_char_not_space. }
    assert (Hfm : fullmatch_word_plus core = true).
    { apply fullmatch_word_plus_spec. auto. }
    assert (Hself : strip core = core).
    { pose proof (strip_padded_nonspace [] core [] (List.Forall_nil _)
                    (List.Forall_nil _) Hne Hns) as H.
      simpl in H. rewrite app_nil_r in H. exact H. }
    unfold validate_monitor_output, validate_output_var.
    rewrite (strip_padded_nonspace ws1 core ws2 H1 H2 Hne Hns), Hself, Hfm.
    split; reflexivity.
  - intros Hbad. unfold validate_monitor_output, validate_output_var.
    destruct (fullmatch_word_plus (strip output_var)) eqn:E; [|reflexivity].
    apply fullmatch_word_plus_spec in E. contradiction.
Qed.

Lemma output_var_trimmed_then_checked_witness :
  (validate_monitor_output sample_ok (lit " Status ")
   = Ok (validate_lines (enumerate (splitlines sample_ok)) (lit "Status"))
   /\ validate_monitor_output sample_ok (lit " Status ")
      = validate_monitor_output sample_ok (lit "Status"))
  /\ validate_monitor_output sample_ok (lit "exit code")
     = Raise (InvalidOutputVar (strip (lit "exit code"))).
Proof.
  split.
  - apply (proj1 (output_var_trimmed_then_checked sample_ok (lit " Status "))
             (lit " ") (lit "Status") (lit " ")).
    + reflexivity.
    + repeat constructor.
    + repeat constructor.
    + discriminate.
    + repeat constructor.
  - apply (proj2 (output_var_trimmed_then_checked sample_ok
                    (lit "exit code"))).
    intros [_ H]. vm_compute in H.
    do 4 (apply Forall_cons_iff in H as [_ H]).
    apply Forall_cons_iff in H as [H _]. discriminate.
Defined.

Example output_var_empty_raises :
  validate_monitor_output sample_ok (lit "   ")
  = Raise (InvalidOutputVar []).
Proof. vm_compute. reflexivity. Qed.

(** ** Lines of [splitlines]: no line boundary inside, one object each *)

Lemma splitlines_from_no_linebreak n : forall s cur,
  length s <= n ->
  Forall (fun c => is_linebreak c = false) cur ->
  Forall (Forall (fun c => is_linebreak c = false)) (splitlines_from cur s).
Proof.
  induction n as [|n IH]; intros s cur Hlen Hcur.
  - destruct s; [|simpl in Hlen; lia]. simpl.
    destruct cur; constructor; [apply Forall_rev; exact Hcur | constructor].
  - destruct s as [|c rest]; simpl.
    + destruct cur; constructor; [apply Forall_rev; exact Hcur | constructor].
    + simpl in Hlen. destruct (is_linebreak c) eqn:Hc.
      * constructor; [apply Forall_rev; exact Hcur|].
        destruct rest as [|d rest']; [constructor|].
        simpl in Hlen.
        destruct (_ && _); apply IH; simpl; try lia; constructor.
      * apply IH; [lia|]. constructor; assumption.
Qed.

Lemma splitlines_no_linebreak text :
  Forall (Forall (fun c => is_linebreak c = false)) (splitlines text).
Proof.
  apply (splitlines_from_no_linebreak (length text)); [lia | constructor].
Qed.

Lemma enumerate_from_fst i l :
  map fst (enumerate_from i l) = seq i (length l).
Proof.
  revert i. induction l as [|x l IH]; intros i; simpl; [reflexivity|].
  rewrite IH. reflexivity.
Qed.

Lemma enumerate_from_snd i l : map snd (enumerate_from i l) = l.
Proof.
  revert i. induction l as [|x l IH]; intros i; simpl; [reflexivity|].
  rewrite IH. reflexivity.
Qed.

Lemma enumerate_distinct l : distinct_objects (enumerate l).
Proof.
  unfold distinct_objects, enumerate. rewrite enumerate_from_fst.
  apply NoDup_seq.
Qed.

Lemma enumerate_from_single_lines i l :
  Forall (Forall (fun c => is_linebreak c = false)) l ->
  single_lines (enumerate_from i l).
Proof.
  intros H. revert i. induction H as [|x l Hx _ IH]; intros i; simpl.
  - constructor.
  - constructor; [exact Hx | apply IH].
Qed.

Lemma enumerate_single_lines text : single_lines (enumerate (splitlines text)).
Proof. apply enumerate_from_single_lines, splitlines_no_linebreak. Qed.

Lemma rstrip_newline_id fresh ln :
  Forall (fun c => is_linebreak c = false) (snd ln) ->
  rstrip_newline fresh ln = ln.
Proof.
  intros H. unfold rstrip_newline.
  assert (E : rstrip_chars [LF] (snd ln) = snd ln).
  { unfold rstrip_chars. apply Forall_rev in H.
    rewrite <- (rev_involutive (snd ln)) at 2.
    destruct (rev (snd ln)) as [|c r]; [reflexivity|].
    simpl. inversion H as [|? ? Hc _]; subst.
    rewrite bool_decide_eq_false_2; [reflexivity|].
    intros Hin. apply list_elem_of_singleton in Hin. subst c.
    rewrite LF_is_linebreak in Hc. discriminate. }
  rewrite E. rewrite bool_decide_eq_true_2 by reflexivity. reflexivity.
Qed.

Lemma filter_sublist {A} (f : A -> bool) (l : list A) :
  sublist (List.filter f l) l.
Proof.
  induction l as [|x l IH]; simpl; [constructor|].
  destruct (f x); [apply sublist_skip | apply sublist_cons]; exact IH.
Qed.

Lemma sublist_Forall {A} (P : A -> Prop) (l k : list A) :
  sublist l k -> Forall P k -> Forall P l.
Proof.
  induction 1 as [|x l k _ IH|x l k _ IH]; intros H.
  - constructor.
  - inversion H; subst. constructor; auto.
  - inversion H; subst. auto.
Qed.

Lemma map_sublist {A B} (f : A -> B) (l k : list A) :
  sublist l k -> sublist (map f l) (map f k).
Proof. induction 1; simpl; constructor; assumption. Qed.

Lemma result_lines_slice lines rs re_ :
  single_lines lines ->
  result_lines lines rs re_ = take (re_ - (rs + 1)) (drop (rs + 1) lines).
Proof.
  intros H. unfold result_lines.
  assert (Hs : single_lines (take (re_ - (rs + 1)) (drop (rs + 1) lines))).
  { eapply sublist_Forall; [|exact H].
    etransitivity; [apply sublist_take | apply sublist_drop]. }
  induction Hs as [|ln l Hln _ IH]; simpl; [reflexivity|].
  rewrite IH, (rstrip_newline_id _ _ Hln). reflexivity.
Qed.

Lemma non_empty_result_lines_sublist lines rs re_ :
  single_lines lines ->
  sublist (non_empty (result_lines lines rs re_)) lines.
Proof.
  intros H. rewrite (result_lines_slice _ _ _ H). unfold non_empty.
  etransitivity; [apply filter_sublist|].
  etransitivity; [apply sublist_take | apply sublist_drop].
Qed.

Lemma result_block_distinct text rs re_ :
  distinct_objects (result_block text rs re_).
Proof.
  unfold distinct_objects.
  eapply sublist_NoDup; [apply (enumerate_distinct (splitlines text))|].
  apply map_sublist, non_empty_result_lines_sublist, enumerate_single_lines.
Qed.

Lemma result_block_single_lines text rs re_ :
  single_lines (result_block text rs re_).
Proof.
  unfold single_lines.
  eapply sublist_Forall; [|apply (enumerate_single_lines text)].
  apply non_empty_result_lines_sublist, enumerate_single_lines.
Qed.

(** ** The content stages *)

Lemma validate_framed text output_var name ds de rs re_ :
  validate_output_var output_var = Ok name ->
  framed text ds de rs re_ ->
  validate_monitor_output text output_var
  = Ok (check_result_block (result_block text rs re_) name).
Proof.
  intros Hname (H1 & H2 & H3 & H4 & L1 & L2 & L3).
  unfold validate_monitor_output. rewrite Hname. unfold bind. f_equal.
  rewrite (validate_lines_counted _ _ _ _ _ _ H1 H2 H3 H4).
  apply Nat.ltb_lt in L1, L2, L3. rewrite L1, L2, L3. reflexivity.
Qed.

Lemma strip_prefix_app p s : strip_prefix p (p ++ s) = Some s.
Proof.
  induction p as [|a p IH]; simpl; [destruct s; reflexivity|].
  rewrite N.eqb_refl. exact IH.
Qed.

Lemma strip_prefix_head a p b s :
  a <> b -> strip_prefix (a :: p) (b :: s) = None.
Proof.
  intros H. simpl. destruct (N.eqb_spec a b); [contradiction | reflexivity].
Qed.

Lemma take_while_all (f : N -> bool) s :
  Forall (fun c => f c = true) s -> take_while f s = s.
Proof.
  induction 1 as [|c s Hc _ IH]; simpl; [reflexivity|].
  rewrite Hc, IH. reflexivity.
Qed.

Lemma dot_plus_dollar_single_line s :
  s <> [] -> Forall (fun c => is_linebreak c = false) s ->
  dot_plus_dollar s = true.
Proof.
  intros Hne H. unfold dot_plus_dollar. cbv zeta.
  rewrite take_while_all.
  - destruct s; [congruence|]. rewrite drop_all. reflexivity.
  - eapply List.Forall_impl; [|exact H]. intros c Hc. simpl in Hc.
    destruct (N.eqb_spec c LF) as [->|]; [|reflexivity].
    rewrite LF_is_linebreak in Hc. discriminate.
Qed.

(** A line of the text that reads [name=value] with a non-empty value
    matches the pattern. *)
Lemma pattern_match_name_value name value :
  value <> [] -> Forall (fun c => is_linebreak c = false) value ->
  pattern_match name (name ++ lit "=" ++ value) = true.
Proof.
  intros Hne H. unfold pattern_match.
  rewrite app_assoc, strip_prefix_app.
  apply dot_plus_dollar_single_line; assumption.
Qed.

(** A line that starts with whitespace does not match, whatever
    follows. *)
Lemma pattern_match_indented name w rest :
  name <> [] -> Forall (fun c => is_word_char c = true) name ->
  is_space w = true ->
  pattern_match name (w :: rest) = false.
Proof.
  intros Hne Hname Hw. unfold pattern_match.
  destruct name as [|a name]; [congruence|].
  inversion Hname as [|? ? Ha _]; subst.
  change ((a :: name) ++ lit "=") with (a :: (name ++ lit "=")).
  rewrite strip_prefix_head; [reflexivity|].
  intros ->. apply word_char_not_space in Ha. congruence.
Qed.

Lemma strip_prefix_Some p : forall s v,
  strip_prefix p s = Some v -> s = p ++ v.
Proof.
  induction p as [|a p IH]; intros s v; simpl.
  - destruct s; intros [= <-]; reflexivity.
  - destruct s as [|b s]; [discriminate|].
    destruct (N.eqb_spec a b) as [->|]; [|discriminate].
    intros H. rewrite (IH _ _ H). reflexivity.
Qed.

(** A matching line has a name, the sign [=] and at least one more
    character. *)
Lemma pattern_match_length output_var ln :
  output_var <> [] -> pattern_match output_var ln = true ->
  3 <= length ln.
Proof.
  intros Hne. unfold pattern_match.
  destruct (strip_prefix _ ln) as [v|] eqn:E; [|discriminate].
  apply strip_prefix_Some in E. subst ln.
  unfold dot_plus_dollar. intros H.
  destruct v as [|c v]; [discriminate|].
  destruct output_var; [congruence|].
  rewrite !length_app. simpl. lia.
Qed.

Lemma is_refl ln : is_ ln ln = true.
Proof. apply Nat.eqb_refl. Qed.

(** C7: with the markers in place, a result block whose non-empty lines
    are exactly [a] and [b], of which exactly one matches
    [name=value], is rejected with the extra-line errors naming the line
    that does not match. *)
Theorem extra_line_rejected (text output_var name : str)
    (ds de rs re_ : nat) (a b : line) :
  validate_output_var output_var = Ok name ->
  framed text ds de rs re_ ->
  result_block text rs re_ = [a; b] ->
  pattern_match name (snd a) = negb (pattern_match name (snd b)) ->
  validate_monitor_output text output_var
  = Ok (invalid [one_line_error;
                 extra_lines_error
                   [if pattern_match name (snd a) then snd b else snd a]]).
Proof.
  intros Hname Hframed Hblock Hone.
  rewrite (validate_framed _ _ _ _ _ _ _ Hname Hframed).
  pose proof (result_block_distinct text rs re_) as Hd.
  rewrite Hblock in *. unfold distinct_objects in Hd. simpl in Hd.
  apply NoDup_cons in Hd as [Hab _].
  assert (Hne : fst a <> fst b).
  { intros E. apply Hab. rewrite E. left. }
  unfold check_result_block. cbn [List.filter].
  rewrite Hone.
  destruct (pattern_match name (snd b)); cbn [negb length Nat.eqb hd].
  - unfold is_. rewrite Nat.eqb_refl.
    destruct (Nat.eqb_spec (fst a) (fst b)); [contradiction|].
    reflexivity.
  - unfold is_. rewrite Nat.eqb_refl.
    destruct (Nat.eqb_spec (fst b) (fst a)); [congruence|].
    reflexivity.
Qed.

Lemma extra_line_rejected_witness :
  validate_monitor_output sample_extra_line (lit "Status")
  = Ok (invalid [one_line_error;
                 extra_lines_error [lit "note: all good"]]).
Proof.
  apply (extra_line_rejected sample_extra_line (lit "Status") (lit "Status")
           0 2 3 6 (4, lit "Status=OK") (5, lit "note: all good")).
  - vm_compute. reflexivity.
  - unfold framed. repeat split; try lia; vm_compute; reflexivity.
  - vm_compute. reflexivity.
  - vm_compute. reflexivity.
Defined.

(** C8: with the markers in place, a result block whose only non-empty
    line is [name=] followed by a value that starts with a whitespace
    character is rejected with the single spaces-around-[=] error. *)
Theorem leading_space_in_value_rejected (text output_var name : str)
    (ds de rs re_ i : nat) (c : N) (rest : str) :
  validate_output_var output_var = Ok name ->
  framed text ds de rs re_ ->
  result_block text rs re_ = [(i, name ++ lit "=" ++ c :: rest)] ->
  is_space c = true ->
  validate_monitor_output text output_var = Ok (invalid [spaces_error]).
Proof.
  intros Hname Hframed Hblock Hc.
  rewrite (validate_framed _ _ _ _ _ _ _ Hname Hframed).
  pose proof (result_block_single_lines text rs re_) as Hs.
  rewrite Hblock in *. unfold single_lines in Hs.
  apply Forall_cons in Hs as [Hs _]. cbn [snd] in Hs.
  apply Forall_app in Hs as [_ Hs]. apply Forall_app in Hs as [_ Hs].
  unfold check_result_block. cbn [List.filter snd].
  rewrite pattern_match_name_value by (assumption || discriminate).
  cbn [negb length Nat.eqb hd]. rewrite is_refl. cbn [negb snd].
  rewrite app_assoc.
  replace (length name + 1) with (length (name ++ lit "="))
    by (rewrite length_app; reflexivity).
  rewrite drop_app_length. cbn [take isspace forallb].
  rewrite Hc. reflexivity.
Qed.

Lemma leading_space_in_value_rejected_witness :
  validate_monitor_output sample_space_after_eq (lit "Status")
  = Ok (invalid [spaces_error]).
Proof.
  apply (leading_space_in_value_rejected sample_space_after_eq
           (lit "Status") (lit "Status") 0 2 3 5 4 32%N (lit "OK: all good")).
  - vm_compute. reflexivity.
  - unfold framed. repeat split; try lia; vm_compute; reflexivity.
  - vm_compute. reflexivity.
  - reflexivity.
Defined.

Lemma strip_marker m ws1 ws2 :
  In m markers ->
  Forall (fun c => is_space c = true) ws1 ->
  Forall (fun c => is_space c = true) ws2 ->
  strip (ws1 ++ lit m ++ ws2) = lit m.
Proof.
  intros Hm H1 H2. unfold markers in Hm. simpl in Hm.
  destruct Hm as [<-|[<-|[<-|[<-|[]]]]].
  - exact (proj2 (strip_padded ws1 ws2 60%N (lit "-Start Diagnostic-") 62%N
                    H1 H2 eq_refl eq_refl)).
  - exact (proj2 (strip_padded ws1 ws2 60%N (lit "-End Diagnostic-") 62%N
                    H1 H2 eq_refl eq_refl)).
  - exact (proj2 (strip_padded ws1 ws2 60%N (lit "-Start Result-") 62%N
                    H1 H2 eq_refl eq_refl)).
  - exact (proj2 (strip_padded ws1 ws2 60%N (lit "-End Result-") 62%N
                    H1 H2 eq_refl eq_refl)).
Qed.

(** C10: the result line is matched from the first character of the
    line as it stands.  With the markers in place, a result block whose
    only non-empty line is [name=value] after some leading whitespace is
    rejected with the match-count error reporting zero matches (and the
    example line); a marker line, in contrast, is found whatever
    whitespace surrounds it. *)
Theorem indented_result_line_not_matched (text output_var name : str)
    (ds de rs re_ i : nat) (ws value : str) :
  validate_output_var output_var = Ok name ->
  framed text ds de rs re_ ->
  result_block text rs re_ = [(i, ws ++ name ++ lit "=" ++ value)] ->
  ws <> [] ->
  Forall (fun c => is_space c = true) ws ->
  validate_monitor_output text output_var
  = Ok (invalid [match_count_error name 0; example_error])
  /\ (forall m ws1 ws2 k,
         In m markers ->
         Forall (fun c => is_space c = true) ws1 ->
         Forall (fun c => is_space c = true) ws2 ->
         find_all [(k, ws1 ++ lit m ++ ws2)] m = [k]).
Proof.
  intros Hname Hframed Hblock Hne Hws. split.
  - rewrite (validate_framed _ _ _ _ _ _ _ Hname Hframed), Hblock.
    apply validate_output_var_Ok in Hname as (_ & Hn & Hword).
    destruct ws as [|w ws]; [congruence|].
    inversion Hws as [|? ? Hw _]; subst.
    unfold check_result_block. cbn [List.filter snd].
    change ((w :: ws) ++ name ++ lit "=" ++ value)
      with (w :: (ws ++ name ++ lit "=" ++ value)).
    rewrite (pattern_match_indented _ _ _ Hn Hword Hw).
    reflexivity.
  - intros m ws1 ws2 k Hm H1 H2. unfold find_all. cbn [List.filter snd].
    rewrite (strip_marker m ws1 ws2 Hm H1 H2).
    rewrite bool_decide_eq_true_2 by reflexivity. reflexivity.
Qed.

Lemma indented_result_line_not_matched_witness :
  validate_monitor_output sample_indented (lit "Status")
  = Ok (invalid [match_count_error (lit "Status") 0; example_error])
  /\ find_all [(7, lit "  " ++ lit "<-End Result->" ++ lit " ")]
       "<-End Result->" = [7].
Proof.
  assert (Hs : Forall (fun c => is_space c = true) (lit "  ")).
  { repeat constructor. }
  destruct (indented_result_line_not_matched sample_indented (lit "Status")
              (lit "Status") 0 2 3 5 4 (lit "  ") (lit "OK")) as [H1 H2].
  - vm_compute. reflexivity.
  - unfold framed. repeat split; try lia; vm_compute; reflexivity.
  - vm_compute. reflexivity.
  - discriminate.
  - exact Hs.
  - split; [exact H1|].
    apply H2; [right; right; right; left; reflexivity | exact Hs |].
    repeat constructor.
Defined.

(** ** The [run] command *)

Lemma validate_monitor_output_raises text output_var e :
  validate_monitor_output text output_var = Raise e ->
  configuration_error e = false.
Proof.
  unfold validate_monitor_output, validate_output_var, bind.
  destruct (fullmatch_word_plus _); [discriminate|].
  intros [= <-]. reflexivity.
Qed.

Lemma cmd_run_spawn_raises h p w e w' :
  cmd_run_spawn h p w = (Raise e, w') -> configuration_error e = false.
Proof.
  unfold cmd_run_spawn, bindM, open_wb.
  destruct (is_dir (stdout_path p) w); [discriminate|].
  cbn [dirs files spawned].
  destruct (is_dir (stderr_path p) _); [discriminate|].
  destruct (child h _ _ _ _) as [[[rc out] err]|]; [discriminate|].
  intros [= <- _]. reflexivity.
Qed.

Lemma cmd_run_finish_raises h args p returncode w e w' :
  cmd_run_finish h args p returncode w = (Raise e, w') ->
  configuration_error e = false.
Proof.
  unfold cmd_run_finish, bindM, read_bytes, lift, ret.
  destruct (should_validate _ _); [|discriminate].
  destruct (files w !! stdout_path p); [|discriminate].
  destruct (validate_monitor_output _ _) as [v| e0 |] eqn:E; [| |discriminate].
  - destruct (ok v); [discriminate|].
    destruct (returncode =? 0)%Z; discriminate.
  - intros [= <- _]. exact (validate_monitor_output_raises _ _ _ E).
Qed.

Lemma parse_env_lines_raises h lines env0 e :
  parse_env_lines h lines env0 = Raise e ->
  (exists raw_line, e = InvalidEnvLine raw_line)
  \/ (exists raw_line, e = EmptyEnvKey raw_line).
Proof.
  revert env0. induction lines as [|raw_line rest IH]; intros env0; simpl.
  - discriminate.
  - destruct (_ || _); [apply IH|].
    destruct (split_at_equals _) as [[key value]|].
    + destruct (bool_decide (strip key = [])).
      * intros [= <-]. right. eauto.
      * apply IH.
    + intros [= <-]. left. eauto.
Qed.

Lemma parse_env_file_reads h env_path w r w' :
  parse_env_file h env_path w = (r, w') ->
  w' = w
  /\ forall e, r = Raise e ->
       e = VarsFileNotFound env_path
       \/ (exists raw_line, e = InvalidEnvLine raw_line)
       \/ (exists raw_line, e = EmptyEnvKey raw_line).
Proof.
  unfold parse_env_file, bindM, read_bytes, uncaught, lift.
  destruct (exists_ env_path w); cbn [negb].
  - destruct (files w !! env_path).
    + destruct (decode_utf8 h _).
      * intros [= <- <-]. split; [reflexivity|].
        intros e He. right. exact (parse_env_lines_raises _ _ _ _ He).
      * intros [= <- <-]. split; [reflexivity | discriminate].
    + intros [= <- <-]. split; [reflexivity | discriminate].
  - intros [= <- <-]. split; [reflexivity|]. intros e [= <-]. auto.
Qed.

Lemma copy2_frame src dst w r w' :
  copy2 src dst w = (r, w') ->
  dirs w' = dirs w /\ spawned w' = spawned w /\ forall e, r <> Raise e.
Proof.
  unfold copy2.
  destruct (bool_decide _); [intros [= <- <-]; repeat split; discriminate|].
  destruct (is_dir _ w); [intros [= <- <-]; repeat split; discriminate|].
  destruct (files w !! src); intros [= <- <-]; repeat split; discriminate.
Qed.

Lemma copy_each_frame children workdir0 : forall w r w',
  copy_each children workdir0 w = (r, w') ->
  dirs w' = dirs w /\ spawned w' = spawned w /\ forall e, r <> Raise e.
Proof.
  induction children as [|c rest IH]; intros w r w'; simpl.
  - unfold ret. intros [= <- <-]. repeat split; discriminate.
  - unfold bindM.
    destruct (copy2 c _ w) as [[[]| e0 | s] w1] eqn:E;
      apply copy2_frame in E as (Hd & Hs & Hr).
    + intros H. apply IH in H as (Hd' & Hs' & Hr').
      repeat split; [congruence | congruence | exact Hr'].
    + exfalso. exact (Hr e0 eq_refl).
    + intros [= <- <-]. repeat split; [assumption | assumption | discriminate].
Qed.

Lemma copy_attachments_cases attachments_dir workdir0 w r w' :
  copy_attachments attachments_dir workdir0 w = (r, w') ->
  dirs w' = dirs w /\ spawned w' = spawned w
  /\ forall e, r = Raise e ->
       e = AttachmentsNotDirectory attachments_dir /\ w' = w.
Proof.
  unfold copy_attachments.
  destruct (_ || _).
  - intros [= <- <-]. split; [reflexivity|]. split; [reflexivity|].
    intros e [= <-]. split; reflexivity.
  - intros H. apply copy_each_frame in H as (Hd & Hs & Hr).
    split; [assumption|]. split; [assumption|].
    intros e ->. exfalso. exact (Hr e eq_refl).
Qed.

(** Where [cmd_run_prepare] raises, and what it has done by then. *)
Lemma cmd_run_prepare_raises h args w e w' :
  cmd_run_prepare h args w = (Raise e, w') ->
  spawned w' = spawned w
  /\ match e with
     | ScriptNotFound _ => w' = w
     | VarsFileNotFound _ | InvalidEnvLine _ | EmptyEnvKey _
     | AttachmentsNotDirectory _ => w' = after_workdir h args w
     | UnsupportedExtension _ =>
         match args_attachments args with
         | Some attachments =>
             copy_attachments attachments (chosen_workdir h args w)
               (after_workdir h args w) = (Ok tt, w')
         | None => w' = after_workdir h args w
         end
     | InvalidOutputVar _ | CommandNotFound _ => False
     end.
Proof.
  unfold cmd_run_prepare, bindM at 1.
  destruct (exists_ _ w); cbn [negb].
  2: { unfold raise. intros [= <- <-]. split; reflexivity. }
  unfold bindM at 1.
  assert (Hwd : exists w0,
    match args_workdir args with
    | Some d => ret (resolve h d)
    | None => make_temp_dir h
    end w = (Ok (chosen_workdir h args w), w0)
    /\ spawned w0 = spawned w
    /\ after_workdir h args w
       = {| dirs := dirs w0
                    ∪ list_to_set (ancestors_and_self (chosen_workdir h args w));
            files := files w0; spawned := spawned w0 |}).
  { unfold after_workdir, chosen_workdir.
    destruct (args_workdir args); eexists;
      (split; [reflexivity|]; split; reflexivity). }
  destruct Hwd as (w0 & -> & Hs0 & Haw).
  unfold bindM at 1. unfold mkdir at 1.
  destruct (is_file _ w0); [discriminate|].
  destruct (existsb _ _); [discriminate|].
  rewrite <- Haw. clear Haw.
  assert (Hs1 : spawned (after_workdir h args w) = spawned w).
  { unfold after_workdir. destruct (args_workdir args); reflexivity. }
  revert Hs1. generalize (after_workdir h args w) as w1.
  generalize (chosen_workdir h args w) as wd. intros wd w1 Hs1.
  unfold bindM at 1.
  match goal with
  | |- match ?m w1 with _ => _ end = _ -> _ =>
      destruct (m w1) as [[env0| e0 |s] w2] eqn:Henv
  end.
  2: { intros [= <- <-].
       destruct (args_vars args) as [vars|]; [|discriminate].
       unfold bindM in Henv.
       destruct (parse_env_file h vars w1) as [[?| e1|?] w3] eqn:Hp;
         try discriminate.
       injection Henv as <- <-.
       apply parse_env_file_reads in Hp as [-> Hr].
       split; [exact Hs1|].
       destruct (Hr _ eq_refl) as [->|[[l ->]|[l ->]]]; reflexivity. }
  2: discriminate.
  assert (w2 = w1) as ->.
  { destruct (args_vars args) as [vars|].
    - unfold bindM in Henv.
      destruct (parse_env_file h vars w1) as [[?| ?|?] w3] eqn:Hp;
        try discriminate.
      apply parse_env_file_reads in Hp as [-> _].
      unfold ret in Henv. congruence.
    - unfold ret in Henv. congruence. }
  clear Henv. unfold bindM at 1.
  destruct (args_attachments args) as [attachments|].
  - destruct (copy_attachments attachments wd w1) as [[[]| e0 |s] w3] eqn:Hc;
      pose proof Hc as Hc'; apply copy_attachments_cases in Hc' as (_ & Hs3 & Hr).
    + unfold bindM. destruct (String.eqb _ ".ps1"); [discriminate|].
      destruct (String.eqb _ ".sh"); [discriminate|].
      unfold raise. intros [= <- <-]. split; [congruence | reflexivity].
    + intros [= <- <-]. destruct (Hr _ eq_refl) as [-> ->].
      split; [exact Hs1 | reflexivity].
    + discriminate.
  - unfold ret at 1. unfold bindM.
    destruct (String.eqb _ ".ps1"); [discriminate|].
    destruct (String.eqb _ ".sh"); [discriminate|].
    unfold raise. intros [= <- <-]. split; [exact Hs1 | reflexivity].
Qed.

(** C1: in a run whose preparation and child succeed and in which
    validation is performed and returns a result, a child exit code of 0
    with a failed validation gives exit code 2, and a non-zero child
    exit code is returned as it is, whether validation passed or not. *)
Theorem validation_exit_code (h : Host) (args : Namespace) (w w1 w2 : World)
    (p : Prepared) (returncode : Z) (content : bytes)
    (validation : MonitorValidationResult) :
  cmd_run_prepare h args w = (Ok p, w1) ->
  cmd_run_spawn h p w1 = (Ok returncode, w2) ->
  should_validate (args_validate_monitor args) (script_path p) = true ->
  files w2 !! stdout_path p = Some content ->
  validate_monitor_output (decode_utf8_replace h content)
    (args_output_var args) = Ok validation ->
  (returncode = 0%Z -> ok validation = false ->
   cmd_run h args w = (Ok 2%Z, w2))
  /\ (returncode <> 0%Z -> cmd_run h args w = (Ok returncode, w2)).
Proof.
  intros Hprep Hspawn Hsv Hfile Hval.
  assert (Hrun : cmd_run h args w
                 = (Ok (if ok validation then returncode
                        else if (returncode =? 0)%Z then 2%Z
                             else returncode), w2)).
  { unfold cmd_run, bindM. rewrite Hprep, Hspawn.
    unfold cmd_run_finish, bindM, read_bytes, lift, ret.
    rewrite Hsv, Hfile, Hval.
    destruct (ok validation); [reflexivity|].
    destruct (returncode =? 0)%Z; reflexivity. }
  split.
  - intros -> Hok. rewrite Hrun, Hok. reflexivity.
  - intros Hnz. rewrite Hrun.
    destruct (ok validation); [reflexivity|].
    destruct (Z.eqb_spec returncode 0); [contradiction | reflexivity].
Qed.

Lemma run_result {A} (m : result A * World) (r : result A) :
  fst m = r -> m = (r, snd m).
Proof. destruct m. simpl. intros ->. reflexivity. Qed.

Lemma validation_exit_code_witness :
  cmd_run (sample_host (lit "no markers") 0) (sample_args sample_monitor)
    sample_world
  = (Ok 2%Z, sample_after_spawn (sample_host (lit "no markers") 0)
               (sample_args sample_monitor))
  /\ cmd_run (sample_host (lit "no markers") 3) (sample_args sample_monitor)
       sample_world
     = (Ok 3%Z, sample_after_spawn (sample_host (lit "no markers") 3)
                  (sample_args sample_monitor)).
Proof.
  split.
  - apply (proj1 (validation_exit_code (sample_host (lit "no markers") 0)
                    (sample_args sample_monitor) sample_world
                    (sample_after_prepare _ _) (sample_after_spawn _ _)
                    sample_prepared 0%Z (encode (lit "no markers"))
                    (invalid (map expected_one markers))
                    (run_result _ _ ltac:(vm_compute; reflexivity))
                    (run_result _ _ ltac:(vm_compute; reflexivity))
                    ltac:(vm_compute; reflexivity)
                    ltac:(vm_compute; reflexivity)
                    ltac:(vm_compute; reflexivity)));
      reflexivity.
  - apply (proj2 (validation_exit_code (sample_host (lit "no markers") 3)
                    (sample_args sample_monitor) sample_world
                    (sample_after_prepare _ _) (sample_after_spawn _ _)
                    sample_prepared 3%Z (encode (lit "no markers"))
                    (invalid (map expected_one markers))
                    (run_result _ _ ltac:(vm_compute; reflexivity))
                    (run_result _ _ ltac:(vm_compute; reflexivity))
                    ltac:(vm_compute; reflexivity)
                    ltac:(vm_compute; reflexivity)
                    ltac:(vm_compute; reflexivity))).
    discriminate.
Defined.

Lemma cmd_run_prepare_script_path h args w p w1 :
  cmd_run_prepare h args w = (Ok p, w1) ->
  script_path p
  = if negb (is_absolute (args_script args))
    then resolve h (joinpath (REPO_ROOT h) (args_script args))
    else args_script args.
Proof.
  unfold cmd_run_prepare, bindM at 1.
  destruct (exists_ _ w); cbn [negb]; [|discriminate].
  unfold bindM at 1.
  match goal with
  | |- match ?m w with _ => _ end = _ -> _ =>
      destruct (m w) as [[wd| |] w0]; [| discriminate | discriminate]
  end.
  unfold bindM at 1.
  destruct (mkdir wd w0) as [[[]| |] w2]; [| discriminate | discriminate].
  unfold bindM at 1.
  match goal with
  | |- match ?m w2 with _ => _ end = _ -> _ =>
      destruct (m w2) as [[env0| |] w3]; [| discriminate | discriminate]
  end.
  unfold bindM at 1.
  match goal with
  | |- match ?m w3 with _ => _ end = _ -> _ =>
      destruct (m w3) as [[[]| |] w4]; [| discriminate | discriminate]
  end.
  unfold bindM.
  match goal with
  | |- match ?m w4 with _ => _ end = _ -> _ =>
      destruct (m w4) as [[cmd0| |] w5]; [| discriminate | discriminate]
  end.
  unfold ret. intros [= <- _]. reflexivity.
Qed.

(** C5, as the code has it: validation is performed exactly when the
    caller passed the validate flag or some component of the script's
    resolved path is [Monitors]; the path is the caller's, made absolute
    under the repository root.  Without validation the child's exit code
    is returned; with it, the captured output decides. *)
Theorem validation_performed_iff (h : Host) (args : Namespace) (p : Prepared)
    (returncode : Z) (w : World) :
  (should_validate (args_validate_monitor args) (script_path p) = true
   <-> args_validate_monitor args = true \/ In "Monitors" (script_path p))
  /\ (forall w0 w1,
         cmd_run_prepare h args w0 = (Ok p, w1) ->
         script_path p
         = if negb (is_absolute (args_script args))
           then resolve h (joinpath (REPO_ROOT h) (args_script args))
           else args_script args)
  /\ (should_validate (args_validate_monitor args) (script_path p) = false ->
      cmd_run_finish h args p returncode w = (Ok returncode, w))
  /\ (should_validate (args_validate_monitor args) (script_path p) = true ->
      forall content,
        files w !! stdout_path p = Some content ->
        cmd_run_finish h args p returncode w
        = (let* validation :=
             validate_monitor_output (decode_utf8_replace h content)
               (args_output_var args) in
           Ok (if ok validation then returncode
               else if (returncode =? 0)%Z then 2%Z else returncode), w)).
Proof.
  split; [|split; [|split]].
  - unfold should_validate.
    destruct (args_validate_monitor args); cbn [negb andb].
    + split; auto.
    + destruct (bool_decide_reflect ("Monitors" ∈ script_path p)) as [Hin|Hin];
        rewrite list_elem_of_In in Hin.
      * split; auto.
      * split; [discriminate | intros [?|?]; [discriminate | contradiction]].
  - intros w0 w1. apply cmd_run_prepare_script_path.
  - intros Hsv. unfold cmd_run_finish. rewrite Hsv. reflexivity.
  - intros Hsv content Hfile.
    unfold cmd_run_finish, bindM, read_bytes, lift, ret, bind.
    rewrite Hsv, Hfile.
    destruct (validate_monitor_output _ _) as [v| |]; try reflexivity.
    destruct (ok v); [reflexivity|].
    destruct (returncode =? 0)%Z; reflexivity.
Qed.

Lemma validation_performed_iff_witness :
  In "Monitors" (script_path sample_prepared)
  /\ should_validate false (script_path sample_prepared) = true
  /\ cmd_run_finish (sample_host (lit "no markers") 0)
       (sample_args sample_monitor) sample_prepared 0%Z
       (sample_after_spawn (sample_host (lit "no markers") 0)
          (sample_args sample_monitor))
     = (Ok 2%Z, sample_after_spawn (sample_host (lit "no markers") 0)
                  (sample_args sample_monitor)).
Proof.
  destruct (validation_performed_iff (sample_host (lit "no markers") 0)
              (sample_args sample_monitor) sample_prepared 0%Z
              (sample_after_spawn (sample_host (lit "no markers") 0)
                 (sample_args sample_monitor))) as (Hiff & _ & _ & Hrun).
  assert (Hin : In "Monitors" (script_path sample_prepared)).
  { simpl. auto. }
  split; [exact Hin|].
  split; [apply Hiff; right; exact Hin|].
  rewrite (Hrun (proj2 Hiff (or_intror Hin)) (encode (lit "no markers")))
    by (vm_compute; reflexivity).
  f_equal; vm_compute; reflexivity.
Defined.

(** C5 as stated fails: with the same flag, whether validation is
    performed changes with the text of the script's path. *)
Lemma validation_signal_counterexample :
  ~ (forall (validate_monitor : bool) (script1 script2 : Path),
        should_validate validate_monitor script1
        = should_validate validate_monitor script2).
Proof.
  intros H.
  specialize (H false ["/"; "repo"; "components"; "Monitors"; "disk.sh"]
                ["/"; "repo"; "components"; "Scripts"; "report.sh"]).
  vm_compute in H. discriminate.
Qed.

Example same_flags_different_path :
  fst (cmd_run (sample_host (lit "no markers") 0) (sample_args sample_monitor)
         sample_world) = Ok 2%Z
  /\ fst (cmd_run (sample_host (lit "no markers") 0)
            (sample_args sample_script) sample_world) = Ok 0%Z.
Proof. split; vm_compute; reflexivity. Qed.

(** C6 as stated fails: an unsupported extension is reported after the
    working directory has been created and the attachments copied. *)
Lemma configuration_error_state_counterexample :
  ~ (forall h args w e w',
        cmd_run h args w = (Raise e, w') ->
        configuration_error e = true ->
        spawned w' = spawned w /\ dirs w' = dirs w /\ files w' = files w).
Proof.
  intros H.
  destruct (H (sample_host [] 0) (sample_args sample_text_file) sample_world
              (UnsupportedExtension ".txt") _
              (run_result _ _ ltac:(vm_compute; reflexivity)) eq_refl)
    as (_ & Hd & Hf).
  assert (Hcopied :
    files (snd (cmd_run (sample_host [] 0) (sample_args sample_text_file)
                  sample_world)) !! ["/"; "work"; "tool.bin"]
    = Some [Byte.x01]) by (vm_compute; reflexivity).
  rewrite Hf in Hcopied. vm_compute in Hcopied. discriminate.
Qed.

Example unsupported_extension_after_preparation :
  let w' := snd (cmd_run (sample_host [] 0) (sample_args sample_text_file)
                   sample_world) in
  is_dir ["/"; "work"] sample_world = false
  /\ is_dir ["/"; "work"] w' = true
  /\ files sample_world !! ["/"; "work"; "tool.bin"] = None
  /\ files w' !! ["/"; "work"; "tool.bin"] = Some [Byte.x01]
  /\ spawned w' = [].
Proof. repeat split; vm_compute; reflexivity. Qed.

(** C6, as the code has it: a configuration error is raised during
    preparation, so no child process is started and [main] exits with
    code 1; a missing script is found before anything is changed, the
    errors of the override file and of the attachments directory after
    the working directory has been created, and an unsupported extension
    after the attachments have been copied as well. *)
Theorem configuration_error_before_spawn (h : Host) (args : Namespace)
    (w w' : World) (e : RmmError) :
  cmd_run h args w = (Raise e, w') ->
  configuration_error e = true ->
  cmd_run_prepare h args w = (Raise e, w')
  /\ main_run h args w = (Ok 1%Z, w')
  /\ spawned w' = spawned w
  /\ match e with
     | ScriptNotFound _ => w' = w
     | VarsFileNotFound _ | InvalidEnvLine _ | EmptyEnvKey _
     | AttachmentsNotDirectory _ => w' = after_workdir h args w
     | UnsupportedExtension _ =>
         match args_attachments args with
         | Some attachments =>
             copy_attachments attachments (chosen_workdir h args w)
               (after_workdir h args w) = (Ok tt, w')
         | None => w' = after_workdir h args w
         end
     | InvalidOutputVar _ | CommandNotFound _ => False
     end.
Proof.
  intros Hrun Hcfg.
  assert (Hprep : cmd_run_prepare h args w = (Raise e, w')).
  { unfold cmd_run, bindM in Hrun.
    destruct (cmd_run_prepare h args w) as [[p| e0 |s] w1]; [| |discriminate].
    - destruct (cmd_run_spawn h p w1) as [[rc| e1 |s] w2] eqn:Hs;
        [| |discriminate].
      + apply cmd_run_finish_raises in Hrun. congruence.
      + injection Hrun as -> ->.
        apply cmd_run_spawn_raises in Hs. congruence.
    - injection Hrun as -> ->. reflexivity. }
  split; [exact Hprep|].
  split; [unfold main_run; rewrite Hrun; reflexivity|].
  apply cmd_run_prepare_raises. exact Hprep.
Qed.

Lemma configuration_error_before_spawn_witness :
  spawned (snd (cmd_run (sample_host [] 0) (sample_args sample_text_file)
                  sample_world)) = spawned sample_world
  /\ copy_attachments ["/"; "att"]
       (chosen_workdir (sample_host [] 0) (sample_args sample_text_file)
          sample_world)
       (after_workdir (sample_host [] 0) (sample_args sample_text_file)
          sample_world)
     = (Ok tt, snd (cmd_run (sample_host [] 0) (sample_args sample_text_file)
                      sample_world)).
Proof.
  destruct (configuration_error_before_spawn (sample_host [] 0)
              (sample_args sample_text_file) sample_world _
              (UnsupportedExtension ".txt")
              (run_result _ _ ltac:(vm_compute; reflexivity)) eq_refl)
    as (_ & _ & Hs & Hc).
  split; [exact Hs | exact Hc].
Defined.

(** An output-variable name that does not pass the name check is found
    only when the captured output is validated, after the child has
    run. *)
Example invalid_output_var_after_child :
  let args := {| args_script := sample_monitor;
                 args_vars := None;
                 args_workdir := None;
                 args_attachments := None;
                 args_validate_monitor := true;
                 args_output_var := lit "exit code" |} in
  fst (cmd_run (sample_host (lit "no markers") 3) args sample_world)
  = Raise (InvalidOutputVar (lit "exit code"))
  /\ fst (main_run (sample_host (lit "no markers") 3) args sample_world)
     = Ok 1%Z
  /\ length (spawned (snd (cmd_run (sample_host (lit "no markers") 3) args
                             sample_world))) = 1.
Proof. repeat split; vm_compute; reflexivity. Qed.

(** A line without [=] in the override file is reported once the
    working directory exists, before anything is copied or run. *)
Example malformed_override_after_workdir :
  let args := {| args_script := sample_script;
                 args_vars := Some ["/"; "repo"; "broken.env"];
                 args_workdir := Some ["/"; "work"];
                 args_attachments := Some ["/"; "att"];
                 args_validate_monitor := false;
                 args_output_var := lit "Status" |} in
  let w' := snd (cmd_run (sample_host [] 0) args sample_world) in
  fst (cmd_run (sample_host [] 0) args sample_world)
  = Raise (InvalidEnvLine (lit "NOEQUALS"))
  /\ is_dir ["/"; "work"] w' = true
  /\ files w' !! ["/"; "work"; "tool.bin"] = None
  /\ spawned w' = [].
Proof. repeat split; vm_compute; reflexivity. Qed.

(** * More of the validator *)

Lemma filter_singleton_In {A} (f : A -> bool) (l : list A) (x : A) :
  List.filter f l = [x] -> In x l /\ f x = true.
Proof.
  intros H. apply filter_In. rewrite H. left. reflexivity.
Qed.

Lemma distinct_objects_same ln1 ln2 block :
  distinct_objects block -> In ln1 block -> In ln2 block ->
  fst ln1 = fst ln2 -> ln1 = ln2.
Proof.
  unfold distinct_objects. induction block as [|x block IH]; simpl.
  - contradiction.
  - intros Hd H1 H2 E. apply NoDup_cons in Hd as [Hx Hd].
    rewrite list_elem_of_In in Hx.
    destruct H1 as [->|H1], H2 as [->|H2]; auto.
    + exfalso. apply Hx. rewrite E. apply in_map. exact H2.
    + exfalso. apply Hx. rewrite <- E. apply in_map. exact H1.
Qed.

(** With distinct objects, no line other than [m0] left means the block
    is [m0] alone. *)
Lemma all_same_object_singleton block m0 :
  distinct_objects block -> In m0 block ->
  List.filter (fun ln => negb (is_ ln m0)) block = [] ->
  block = [m0].
Proof.
  intros Hd Hin Hf.
  assert (Hall : forall ln, In ln block -> ln = m0).
  { intros ln Hln. apply (distinct_objects_same ln m0 block Hd Hln Hin).
    destruct (is_ ln m0) eqn:E.
    - apply Nat.eqb_eq in E. exact E.
    - assert (Hin' : In ln (List.filter (fun ln => negb (is_ ln m0)) block)).
      { apply filter_In. rewrite E. auto. }
      rewrite Hf in Hin'. contradiction. }
  destruct block as [|x [|y block]].
  - contradiction.
  - rewrite (Hall x); [reflexivity | left; reflexivity].
  - exfalso. unfold distinct_objects in Hd. simpl in Hd.
    apply NoDup_cons in Hd as [Hx _]. apply Hx.
    rewrite (Hall x), (Hall y); [left | right; left; reflexivity
                                | left; reflexivity].
Qed.

Lemma validate_lines_ok_framed lines output_var :
  ok (validate_lines lines output_var) = true ->
  exists ds de rs re_,
    find_all lines "<-Start Diagnostic->" = [ds]
    /\ find_all lines "<-End Diagnostic->" = [de]
    /\ find_all lines "<-Start Result->" = [rs]
    /\ find_all lines "<-End Result->" = [re_]
    /\ ds < de /\ de < rs /\ rs < re_
    /\ ok (check_result_block (non_empty (result_lines lines rs re_))
             output_var) = true.
Proof.
  unfold validate_lines.
  destruct (count_errors _ _ _ _) eqn:E; [|discriminate].
  apply count_errors_nil in E as (H1 & H2 & H3 & H4).
  destruct (find_all lines "<-Start Diagnostic->") as [|ds [|]];
    try discriminate.
  destruct (find_all lines "<-End Diagnostic->") as [|de [|]];
    try discriminate.
  destruct (find_all lines "<-Start Result->") as [|rs [|]];
    try discriminate.
  destruct (find_all lines "<-End Result->") as [|re_ [|]];
    try discriminate.
  cbn [hd].
  destruct (_ && _) eqn:Hord; cbn [negb]; [|discriminate].
  apply andb_prop in Hord as [Hord L3]. apply andb_prop in Hord as [L1 L2].
  apply Nat.ltb_lt in L1, L2, L3.
  intros Hok. exists ds, de, rs, re_. repeat split; assumption.
Qed.

(** X1: the validator accepts a text exactly when the name passes the
    name check, each marker is on one line, in order, and the result
    block has a single non-empty line, [name=value], with a non-empty
    value that does not start with whitespace. *)
Theorem validate_monitor_output_accepts_iff (text output_var : str) :
  validate_monitor_output text output_var = Ok {| ok := true; errors := [] |}
  <-> exists name ds de rs re_ i value,
        validate_output_var output_var = Ok name
        /\ framed text ds de rs re_
        /\ result_block text rs re_ = [(i, name ++ lit "=" ++ value)]
        /\ value <> []
        /\ isspace (take 1 value) = false.
Proof.
  split.
  - unfold validate_monitor_output, bind.
    destruct (validate_output_var output_var) as [name| |] eqn:Hname;
      try discriminate.
    intros [= Hv].
    assert (Hok : ok (validate_lines (enumerate (splitlines text)) name)
                  = true) by (rewrite Hv; reflexivity).
    apply validate_lines_ok_framed in Hok
      as (ds & de & rs & re_ & H1 & H2 & H3 & H4 & L1 & L2 & L3 & Hok).
    fold (result_block text rs re_) in Hok.
    pose proof (result_block_distinct text rs re_) as Hd.
    remember (result_block text rs re_) as block eqn:Hblk.
    unfold check_result_block in Hok.
    destruct block as [|b0 block']; [discriminate|].
    cbv iota in Hok. remember (b0 :: block') as block eqn:Hblock.
    destruct (List.filter _ block) as [|m0 [|]] eqn:Hm;
      cbn [length Nat.eqb negb hd] in Hok; try discriminate.
    apply filter_singleton_In in Hm as [Hin Hmatch].
    destruct (List.filter (fun ln => negb (is_ ln m0)) block) eqn:Ho;
      [|discriminate].
    apply (all_same_object_singleton _ _ Hd Hin) in Ho.
    destruct (isspace _) eqn:Hsp; [discriminate|].
    unfold pattern_match in Hmatch.
    destruct (strip_prefix _ (snd m0)) as [value|] eqn:Hpre; [|discriminate].
    apply strip_prefix_Some in Hpre.
    exists name, ds, de, rs, re_, (fst m0), value.
    split; [reflexivity|]. split; [unfold framed; tauto|].
    split.
    { rewrite <- Hblk, Ho. rewrite app_assoc, <- Hpre.
      destruct m0; reflexivity. }
    split.
    { intros ->. discriminate. }
    rewrite Hpre in Hsp.
    replace (length name + 1) with (length (name ++ lit "=")) in Hsp
      by (rewrite length_app; reflexivity).
    rewrite drop_app_length in Hsp. exact Hsp.
  - intros (name & ds & de & rs & re_ & i & value
            & Hname & Hframed & Hblock & Hne & Hsp).
    rewrite (validate_framed _ _ _ _ _ _ _ Hname Hframed).
    pose proof (result_block_single_lines text rs re_) as Hs.
    rewrite Hblock in *. unfold single_lines in Hs.
    apply Forall_cons in Hs as [Hs _]. cbn [snd] in Hs.
    apply Forall_app in Hs as [_ Hs]. apply Forall_app in Hs as [_ Hs].
    unfold check_result_block. cbn [List.filter snd].
    rewrite pattern_match_name_value by assumption.
    cbn [negb length Nat.eqb hd]. rewrite is_refl. cbn [negb snd].
    rewrite app_assoc.
    replace (length name + 1) with (length (name ++ lit "="))
      by (rewrite length_app; reflexivity).
    rewrite drop_app_length, Hsp. reflexivity.
Qed.

(** X2: with the markers in place, a result block without a non-empty
    line is rejected with the empty-block error alone. *)
Theorem empty_result_block_rejected (text output_var name : str)
    (ds de rs re_ : nat) :
  validate_output_var output_var = Ok name ->
  framed text ds de rs re_ ->
  result_block text rs re_ = [] ->
  validate_monitor_output text output_var = Ok (invalid [empty_error]).
Proof.
  intros Hname Hframed Hblock.
  rewrite (validate_framed _ _ _ _ _ _ _ Hname Hframed), Hblock.
  reflexivity.
Qed.

Lemma empty_result_block_rejected_witness :
  validate_monitor_output sample_empty_block (lit "Status")
  = Ok (invalid [empty_error]).
Proof.
  apply (empty_result_block_rejected sample_empty_block (lit "Status")
           (lit "Status") 0 2 3 5).
  - vm_compute. reflexivity.
  - unfold framed. repeat split; try lia; vm_compute; reflexivity.
  - vm_compute. reflexivity.
Defined.

(** X3: with the markers in place and a result block that is not empty,
    a number of matching lines other than one is reported with that
    number; in particular two matching lines, equal or not, never reach
    the comparison of lines. *)
Theorem match_count_reported (text output_var name : str)
    (ds de rs re_ : nat) :
  validate_output_var output_var = Ok name ->
  framed text ds de rs re_ ->
  result_block text rs re_ <> [] ->
  length (List.filter (fun ln => pattern_match name (snd ln))
            (result_block text rs re_)) <> 1 ->
  validate_monitor_output text output_var
  = Ok (invalid
          [match_count_error name
             (length (List.filter (fun ln => pattern_match name (snd ln))
                        (result_block text rs re_)));
           example_error]).
Proof.
  intros Hname Hframed Hne Hcount.
  rewrite (validate_framed _ _ _ _ _ _ _ Hname Hframed).
  unfold check_result_block.
  destruct (result_block text rs re_) as [|b0 block]; [congruence|].
  destruct (Nat.eqb_spec (length (List.filter
              (fun ln => pattern_match name (snd ln)) (b0 :: block))) 1);
    [contradiction | reflexivity].
Qed.

Lemma match_count_reported_witness :
  validate_monitor_output sample_twice (lit "Status")
  = Ok (invalid [match_count_error (lit "Status") 2; example_error]).
Proof.
  refine (eq_trans (match_count_reported sample_twice (lit "Status")
                      (lit "Status") 0 2 3 6 _ _ _ _) _).
  - vm_compute. reflexivity.
  - unfold framed. repeat split; try lia; vm_compute; reflexivity.
  - vm_compute. discriminate.
  - vm_compute. lia.
  - vm_compute. reflexivity.
Defined.

(** X4: on the lines of a text, comparing the lines of the result block
    with [matching[0]] by identity gives the same result as comparing
    them by value. *)
Theorem identity_filter_is_value_filter (text output_var : str)
    (rs re_ : nat) :
  check_result_block (result_block text rs re_) output_var
  = check_result_block_by_value (result_block text rs re_) output_var.
Proof.
  pose proof (result_block_distinct text rs re_) as Hd.
  revert Hd. generalize (result_block text rs re_) as block. intros block Hd.
  unfold check_result_block, check_result_block_by_value.
  destruct block as [|b0 block']; [reflexivity|].
  cbv iota. remember (b0 :: block') as block eqn:Hblock.
  destruct (List.filter (fun ln => pattern_match output_var (snd ln)) block)
    as [|m0 [|]] eqn:Hm; cbn [length Nat.eqb negb hd]; try reflexivity.
  pose proof (filter_singleton_In _ _ _ Hm) as [Hin Hmatch].
  assert (Hsame : List.filter (fun ln => negb (is_ ln m0)) block
                  = List.filter
                      (fun ln => negb (bool_decide (snd ln = snd m0))) block).
  { apply filter_ext_in. intros ln Hln. f_equal.
    destruct (bool_decide_reflect (snd ln = snd m0)) as [E|E].
    - assert (Hlm : In ln (List.filter
                (fun ln => pattern_match output_var (snd ln)) block)).
      { apply filter_In. rewrite E. auto. }
      rewrite Hm in Hlm. destruct Hlm as [<-|[]]. apply is_refl.
    - destruct (is_ ln m0) eqn:Eis; [|reflexivity].
      apply Nat.eqb_eq in Eis.
      rewrite (distinct_objects_same ln m0 block Hd Hln Hin Eis) in E.
      congruence. }
  rewrite Hsame. reflexivity.
Qed.

(** X5: a name that [validate_output_var] returns is not empty, holds
    only letters, digits and underscores, and is returned unchanged when
    checked again. *)
Theorem validate_output_var_idempotent (output_var name : str) :
  validate_output_var output_var = Ok name ->
  name <> []
  /\ Forall (fun c => is_word_char c = true) name
  /\ validate_output_var name = Ok name.
Proof.
  intros H. apply validate_output_var_Ok in H as (_ & Hne & Hword).
  split; [exact Hne|]. split; [exact Hword|].
  unfold validate_output_var.
  assert (Hs : strip name = name).
  { pose proof (strip_padded_nonspace [] name [] (List.Forall_nil _)
                  (List.Forall_nil _) Hne) as Hp.
    simpl in Hp. rewrite app_nil_r in Hp. apply Hp.
    eapply List.Forall_impl; [|exact Hword]. apply word_char_not_space. }
  rewrite Hs.
  assert (Hfm : fullmatch_word_plus name = true).
  { apply fullmatch_word_plus_spec. auto. }
  rewrite Hfm. reflexivity.
Qed.

Lemma validate_output_var_idempotent_witness :
  lit "Status" <> []
  /\ Forall (fun c => is_word_char c = true) (lit "Status")
  /\ validate_output_var (lit "Status") = Ok (lit "Status").
Proof.
  apply (validate_output_var_idempotent (lit "  Status ")).
  vm_compute. reflexivity.
Defined.

(** * [parse_env_file] *)

(** What [lstrip] leaves: the string without a whitespace prefix, empty
    or starting with another character. *)
Lemma lstrip_spec s :
  exists ws, s = ws ++ lstrip s
    /\ Forall (fun c => is_space c = true) ws
    /\ (lstrip s = [] \/ exists a r, lstrip s = a :: r /\ is_space a = false).
Proof.
  induction s as [|c s (ws & Hs & Hws & Hend)]; simpl.
  - exists []. repeat split; auto.
  - destruct (is_space c) eqn:Hc.
    + exists (c :: ws). simpl. rewrite <- Hs.
      repeat split; [constructor; assumption | exact Hend].
    + exists []. repeat split; [constructor|]. right. eauto.
Qed.

Lemma Forall_space_app ws1 ws2 :
  Forall (fun c => is_space c = true) ws1 ->
  Forall (fun c => is_space c = true) ws2 ->
  Forall (fun c => is_space c = true) (ws1 ++ ws2).
Proof. intros H1 H2. apply Forall_app. auto. Qed.

Lemma strip_spaces_only ws :
  Forall (fun c => is_space c = true) ws -> strip ws = [].
Proof.
  intros H. unfold strip.
  rewrite <- (app_nil_r ws) at 1. rewrite lstrip_spaces by exact H.
  reflexivity.
Qed.

(** What [strip] leaves: the string without a whitespace prefix and
    suffix; empty, or with another character at each end. *)
Lemma strip_spec s :
  exists ws1 ws2, s = ws1 ++ strip s ++ ws2
    /\ Forall (fun c => is_space c = true) ws1
    /\ Forall (fun c => is_space c = true) ws2
    /\ (strip s = []
        \/ (exists a, strip s = [a] /\ is_space a = false)
        \/ (exists a mid b, strip s = a :: mid ++ [b]
                            /\ is_space a = false /\ is_space b = false)).
Proof.
  destruct (lstrip_spec s) as (ws1 & Hs & Hws1 & Hl).
  destruct (lstrip_spec (rev (lstrip s))) as (ws2 & Hr & Hws2 & Hrl).
  assert (Hls : lstrip s = rstrip (lstrip s) ++ rev ws2).
  { unfold rstrip. rewrite <- rev_app_distr, <- Hr, rev_involutive.
    reflexivity. }
  exists ws1, (rev ws2). unfold strip.
  split; [rewrite <- Hls; exact Hs|].
  split; [exact Hws1|]. split; [apply Forall_rev; exact Hws2|].
  destruct Hrl as [Hnil|(b & r & Hb & Hbs)].
  - left. unfold rstrip. rewrite Hnil. reflexivity.
  - right. unfold rstrip. rewrite Hb. simpl.
    destruct Hl as [Hnil|(a & t & Ha & Has)].
    { rewrite Hnil in Hb. discriminate. }
    assert (Hrs : rev r ++ [b] = rstrip (lstrip s)).
    { unfold rstrip. rewrite Hb. reflexivity. }
    rewrite <- Hrs in Hls. rewrite Ha in Hls.
    destruct (rev r) as [|a' mid] eqn:Hrev.
    + left. exists b. auto.
    + right. exists a', mid, b. simpl in Hls. injection Hls as <- _.
      auto.
Qed.

Lemma strip_idempotent s : strip (strip s) = strip s.
Proof.
  destruct (strip_spec s) as (_ & _ & _ & _ & _
    & [->|[(a & -> & Ha)|(a & mid & b & -> & Ha & Hb)]]).
  - reflexivity.
  - exact (proj1 (strip_padded [] [] a [] a (List.Forall_nil _)
                    (List.Forall_nil _) Ha Ha)).
  - pose proof (proj2 (strip_padded [] [] a mid b (List.Forall_nil _)
                         (List.Forall_nil _) Ha Hb)) as H.
    simpl in H. rewrite app_nil_r in H. exact H.
Qed.

(** Trimming the padded form of a trimmed string gives it back. *)
Lemma strip_trimmed ws1 s ws2 :
  trimmed s ->
  Forall (fun c => is_space c = true) ws1 ->
  Forall (fun c => is_space c = true) ws2 ->
  strip (ws1 ++ s ++ ws2) = s.
Proof.
  unfold trimmed. intros Hs H1 H2.
  destruct (strip_spec s) as (_ & _ & _ & _ & _
    & [E|[(a & E & Ha)|(a & mid & b & E & Ha & Hb)]]);
    rewrite Hs in E; subst s.
  - simpl. apply strip_spaces_only, Forall_space_app; assumption.
  - exact (proj1 (strip_padded ws1 ws2 a [] a H1 H2 Ha Ha)).
  - exact (proj2 (strip_padded ws1 ws2 a mid b H1 H2 Ha Hb)).
Qed.

Lemma trimmed_last_nonspace s b :
  trimmed (s ++ [b]) -> is_space b = false.
Proof.
  unfold trimmed. intros H.
  destruct (strip_spec (s ++ [b])) as (_ & _ & _ & _ & _
    & [E|[(a & E & Ha)|(a & mid & c & E & Ha & Hc)]]);
    rewrite H in E.
  - destruct s; discriminate.
  - destruct s as [|x [|y s]]; try discriminate.
    injection E as ->. exact Ha.
  - change (a :: mid ++ [c]) with ((a :: mid) ++ [c]) in E.
    apply app_inj_tail in E as [_ ->]. exact Hc.
Qed.

Lemma trimmed_head_nonspace a s : trimmed (a :: s) -> is_space a = false.
Proof.
  unfold trimmed. intros H.
  destruct (strip_spec (a :: s)) as (_ & _ & _ & _ & _
    & [E|[(x & E & Hx)|(x & mid & c & E & Hx & Hc)]]);
    rewrite H in E; try discriminate; injection E as -> _; assumption.
Qed.

Lemma split_at_equals_first key rest :
  ~ In EQUALS key ->
  split_at_equals (key ++ EQUALS :: rest) = Some (key, rest).
Proof.
  induction key as [|c key IH]; intros Hnot; simpl.
  - reflexivity.
  - destruct (N.eqb_spec c 61) as [->|_].
    + exfalso. apply Hnot. left. reflexivity.
    + rewrite IH; [reflexivity|]. intros Hin. apply Hnot. right. exact Hin.
Qed.

Lemma split_at_equals_None s :
  ~ In EQUALS s -> split_at_equals s = None.
Proof.
  induction s as [|c s IH]; intros Hnot; simpl; [reflexivity|].
  destruct (N.eqb_spec c 61) as [->|_].
  - exfalso. apply Hnot. left. reflexivity.
  - rewrite IH; [reflexivity|]. intros Hin. apply Hnot. right. exact Hin.
Qed.

Lemma space_not_equals ws :
  Forall (fun c => is_space c = true) ws -> ~ In EQUALS ws.
Proof.
  intros H Hin. rewrite List.Forall_forall in H.
  specialize (H _ Hin). discriminate.
Qed.

Lemma parse_env_lines_concat h lines1 lines2 env0 :
  parse_env_lines h (lines1 ++ lines2) env0
  = let* env1 := parse_env_lines h lines1 env0 in
    parse_env_lines h lines2 env1.
Proof.
  revert env0. induction lines1 as [|raw_line lines1 IH]; intros env0.
  - reflexivity.
  - cbn [app parse_env_lines].
    destruct (_ || _); [apply IH|].
    destruct (split_at_equals _) as [[key value]|]; [|reflexivity].
    destruct (bool_decide (strip key = [])); [reflexivity|].
    apply IH.
Qed.

(** X6: the lines of an override file are read in order: what a prefix
    of the lines yields is the starting point of the rest, and an error
    in the prefix is the error of the whole. *)
Theorem parse_env_lines_app (h : Host) (lines1 lines2 : list str)
    (env0 : environment) :
  parse_env_lines h (lines1 ++ lines2) env0
  = let* env1 := parse_env_lines h lines1 env0 in
    parse_env_lines h lines2 env1.
Proof. apply parse_env_lines_concat. Qed.

(** X7: a blank line and a line whose first character after trimming is
    [#] change nothing, wherever they stand. *)
Theorem parse_env_lines_skips_comments (h : Host) (before after : list str)
    (raw_line : str) (env0 : environment) :
  strip raw_line = [] \/ startswith (lit "#") (strip raw_line) = true ->
  parse_env_lines h (before ++ raw_line :: after) env0
  = parse_env_lines h (before ++ after) env0.
Proof.
  intros Hskip. rewrite !parse_env_lines_concat.
  destruct (parse_env_lines h before env0) as [env1| |]; try reflexivity.
  cbn [bind parse_env_lines].
  destruct Hskip as [-> | ->].
  - reflexivity.
  - rewrite orb_true_r. reflexivity.
Qed.

Lemma parse_env_lines_skips_comments_witness :
  parse_env_lines (sample_host [] 0)
    ([lit "A=1"] ++ lit "  # note" :: [lit "B=2"]) ∅
  = parse_env_lines (sample_host [] 0) ([lit "A=1"] ++ [lit "B=2"]) ∅.
Proof.
  apply parse_env_lines_skips_comments. right. vm_compute. reflexivity.
Defined.

(** X8: a line without [=] that is neither blank nor a comment stops
    the parse with [InvalidEnvLine] carrying the line as it was read,
    whatever follows it. *)
Theorem parse_env_lines_missing_equals (h : Host) (before after : list str)
    (raw_line : str) (env0 env1 : environment) :
  parse_env_lines h before env0 = Ok env1 ->
  strip raw_line <> [] ->
  startswith (lit "#") (strip raw_line) = false ->
  ~ In EQUALS raw_line ->
  parse_env_lines h (before ++ raw_line :: after) env0
  = Raise (InvalidEnvLine raw_line).
Proof.
  intros Hbefore Hne Hcomment Hnot.
  rewrite parse_env_lines_concat, Hbefore. cbn [bind parse_env_lines].
  rewrite bool_decide_eq_false_2 by exact Hne. rewrite Hcomment.
  cbn [orb].
  assert (Hsub : forall s, (forall c, In c s -> In c raw_line) ->
                           split_at_equals s = None).
  { intros s Hs. apply split_at_equals_None. intros Hin. apply Hnot.
    apply Hs. exact Hin. }
  assert (Hstrip : forall s c, In c (strip s) -> In c s).
  { intros s c Hc. destruct (strip_spec s) as (ws1 & ws2 & E & _).
    rewrite E. apply in_or_app. right. apply in_or_app. left. exact Hc. }
  rewrite Hsub; [reflexivity|].
  intros c. destruct (startswith (lit "export ") (strip raw_line)).
  - intros Hc. apply Hstrip in Hc. apply Hstrip.
    rewrite <- (take_drop (length (lit "export ")) (strip raw_line)).
    apply in_or_app. right. exact Hc.
  - apply Hstrip.
Qed.

Lemma parse_env_lines_missing_equals_witness :
  parse_env_lines (sample_host [] 0)
    ([lit "A=1"] ++ lit " export NOEQUALS " :: [lit "B=2"]) ∅
  = Raise (InvalidEnvLine (lit " export NOEQUALS ")).
Proof.
  apply (parse_env_lines_missing_equals (sample_host [] 0) [lit "A=1"]
           [lit "B=2"] (lit " export NOEQUALS ") ∅ (<[lit "A" := lit "1"]> ∅)).
  - vm_compute. reflexivity.
  - vm_compute. discriminate.
  - vm_compute. reflexivity.
  - vm_compute. intuition discriminate.
Defined.

Lemma lstrip_app_nonspace u e v :
  is_space e = false -> lstrip (u ++ e :: v) = lstrip u ++ e :: v.
Proof.
  intros He. induction u as [|c u IH]; simpl.
  - rewrite He. reflexivity.
  - destruct (is_space c); [exact IH | reflexivity].
Qed.

Lemma rstrip_app_nonspace x e y :
  is_space e = false -> rstrip (x ++ e :: y) = x ++ e :: rstrip y.
Proof.
  intros He. unfold rstrip.
  rewrite rev_app_distr. simpl. rewrite <- app_assoc. simpl.
  rewrite lstrip_app_nonspace by exact He.
  rewrite rev_app_distr. simpl. rewrite rev_involutive, <- app_assoc.
  reflexivity.
Qed.

Lemma rstrip_spaces_only ws :
  Forall (fun c => is_space c = true) ws -> rstrip ws = [].
Proof.
  intros H. unfold rstrip.
  rewrite <- (app_nil_r (rev ws)), lstrip_spaces; [reflexivity|].
  apply Forall_rev. exact H.
Qed.

(** The value side of an assignment: trailing whitespace goes with the
    line, leading whitespace with the value. *)
Lemma rstrip_value_tail ws3 value ws4 :
  trimmed value ->
  Forall (fun c => is_space c = true) ws3 ->
  Forall (fun c => is_space c = true) ws4 ->
  let tail := rstrip (ws3 ++ value ++ ws4) in
  rstrip tail = tail /\ strip tail = value.
Proof.
  intros Hv H3 H4.
  destruct value as [|v0 value'] using rev_ind.
  - simpl.
    rewrite (rstrip_spaces_only (ws3 ++ ws4))
      by (apply Forall_space_app; assumption).
    split; reflexivity.
  - clear IHvalue'. pose proof (trimmed_last_nonspace _ _ Hv) as Hb.
    cbv zeta. rewrite app_assoc, rstrip_spaces by exact H4.
    rewrite app_assoc, rstrip_snoc by exact Hb.
    split.
    + apply rstrip_snoc. exact Hb.
    + rewrite <- app_assoc.
      rewrite <- (app_nil_r (value' ++ [v0])) at 1.
      apply strip_trimmed; [exact Hv | exact H3 | constructor].
Qed.

(** Trimming a line whose first part starts with a character other than
    whitespace and is followed by [e], itself not whitespace. *)
Lemma strip_around_sign ws a x e y :
  Forall (fun c => is_space c = true) ws ->
  is_space a = false -> is_space e = false ->
  strip (ws ++ (a :: x) ++ e :: y) = (a :: x) ++ e :: rstrip y.
Proof.
  intros Hws Ha He. unfold strip.
  rewrite lstrip_spaces by exact Hws. simpl. rewrite Ha.
  exact (rstrip_app_nonspace (a :: x) e y He).
Qed.

Lemma strip_prefix_sign p : forall y e rest,
  ~ In e p ->
  strip_prefix p (y ++ [e]) = None ->
  strip_prefix p (y ++ e :: rest) = None.
Proof.
  induction p as [|a p IH]; intros y e rest Hnot.
  - destruct y; discriminate.
  - destruct y as [|b y]; simpl.
    + destruct (N.eqb_spec a e) as [->|]; [|reflexivity].
      exfalso. apply Hnot. left. reflexivity.
    + destruct (a =? b)%N; [|reflexivity].
      apply IH. intros Hin. apply Hnot. right. exact Hin.
Qed.

(** One assignment line, once trimmed (and after [export ], if any). *)
Lemma parse_assignment h rest env0 raw_line key ws2 tail value :
  strip raw_line <> [] ->
  startswith (lit "#") (strip raw_line) = false ->
  (if startswith (lit "export ") (strip raw_line)
   then strip (drop (length (lit "export ")) (strip raw_line))
   else strip raw_line) = (key ++ ws2) ++ EQUALS :: tail ->
  key <> [] -> trimmed key -> ~ In EQUALS key ->
  Forall (fun c => is_space c = true) ws2 ->
  strip tail = value ->
  startswith (lit "'") value = false ->
  startswith [DQUOTE] value = false ->
  parse_env_lines h (raw_line :: rest) env0
  = parse_env_lines h rest (<[key := value]> env0).
Proof.
  intros Hne Hcomment Hline Hkey Htrim Hnot Hws2 Htail Hq1 Hq2.
  cbn [parse_env_lines].
  rewrite bool_decide_eq_false_2 by exact Hne. rewrite Hcomment.
  cbn [orb]. rewrite Hline.
  rewrite split_at_equals_first.
  2: { intros Hin. apply in_app_or in Hin as [Hin|Hin];
       [exact (Hnot Hin) | exact (space_not_equals _ Hws2 Hin)]. }
  assert (Hk : strip (key ++ ws2) = key).
  { exact (strip_trimmed [] key ws2 Htrim (List.Forall_nil _) Hws2). }
  rewrite Hk, Htail.
  rewrite bool_decide_eq_false_2 by exact Hkey.
  unfold DQUOTE in Hq2. rewrite Hq1, Hq2. reflexivity.
Qed.

Ltac assoc := repeat (progress (rewrite <- ?app_assoc; cbn [app])).

(** X9: an assignment line sets the key to the value: whitespace around
    the line, the key and the value is dropped, a leading [export ] is
    dropped, and the value is everything after the first [=], so it may
    hold further [=] signs.  The value must not start with a quote (a
    quoted value goes through [shlex]). *)
Theorem parse_env_lines_assignment (h : Host) (env0 : environment)
    (export : bool) (ws0 ws1 ws2 ws3 ws4 key value : str) (rest : list str) :
  Forall (fun c => is_space c = true) ws0 ->
  Forall (fun c => is_space c = true) ws1 ->
  Forall (fun c => is_space c = true) ws2 ->
  Forall (fun c => is_space c = true) ws3 ->
  Forall (fun c => is_space c = true) ws4 ->
  key <> [] -> trimmed key -> ~ In EQUALS key ->
  trimmed value ->
  startswith (lit "'") value = false ->
  startswith [DQUOTE] value = false ->
  (export = false ->
   startswith (lit "#") key = false
   /\ startswith (lit "export ") (key ++ ws2 ++ [EQUALS]) = false) ->
  parse_env_lines h
    ((ws1 ++ (if export then lit "export " ++ ws0 else [])
          ++ key ++ ws2 ++ EQUALS :: ws3 ++ value ++ ws4) :: rest) env0
  = parse_env_lines h rest (<[key := value]> env0).
Proof.
  intros H0 H1 H2 H3 H4 Hkey Htrim Hnot Hval Hq1 Hq2 Hplain.
  destruct (rstrip_value_tail ws3 value ws4 Hval H3 H4) as [Hrt Hst].
  destruct key as [|a key']; [congruence|].
  pose proof (trimmed_head_nonspace _ _ Htrim) as Ha.
  destruct export.
  - assert (Hs : strip (ws1 ++ (lit "export " ++ ws0) ++ (a :: key') ++ ws2
                        ++ EQUALS :: ws3 ++ value ++ ws4)
                 = lit "export " ++ (ws0 ++ (a :: key') ++ ws2)
                   ++ EQUALS :: rstrip (ws3 ++ value ++ ws4)).
    { transitivity (strip (ws1 ++ (101%N :: (lit "xport " ++ ws0
                             ++ (a :: key') ++ ws2))
                           ++ EQUALS :: (ws3 ++ value ++ ws4))).
      - f_equal. change (lit "export ") with (101%N :: lit "xport ").
        assoc. reflexivity.
      - rewrite strip_around_sign by (exact H1 || reflexivity).
        change (lit "export ") with (101%N :: lit "xport ").
        assoc. reflexivity. }
    eapply parse_assignment with (ws2 := ws2)
                                 (tail := rstrip (ws3 ++ value ++ ws4));
      try eassumption.
    + rewrite Hs. change (lit "export ") with (101%N :: lit "xport ").
      discriminate.
    + rewrite Hs. reflexivity.
    + rewrite Hs.
      assert (Hsw : startswith (lit "export ")
                      (lit "export " ++ (ws0 ++ (a :: key') ++ ws2)
                       ++ EQUALS :: rstrip (ws3 ++ value ++ ws4)) = true).
      { unfold startswith. rewrite strip_prefix_app. reflexivity. }
      rewrite Hsw, drop_app_length.
      transitivity (strip (ws0 ++ (a :: (key' ++ ws2))
                           ++ EQUALS :: rstrip (ws3 ++ value ++ ws4))).
      { f_equal. assoc. reflexivity. }
      rewrite strip_around_sign by (exact H0 || exact Ha || reflexivity).
      rewrite Hrt. assoc. reflexivity.
  - destruct (Hplain eq_refl) as [Hc He].
    assert (Hs : strip (ws1 ++ [] ++ (a :: key') ++ ws2
                        ++ EQUALS :: ws3 ++ value ++ ws4)
                 = ((a :: key') ++ ws2)
                   ++ EQUALS :: rstrip (ws3 ++ value ++ ws4)).
    { transitivity (strip (ws1 ++ (a :: (key' ++ ws2))
                           ++ EQUALS :: (ws3 ++ value ++ ws4))).
      - f_equal. assoc. reflexivity.
      - rewrite strip_around_sign by (exact H1 || exact Ha || reflexivity).
        assoc. reflexivity. }
    eapply parse_assignment with (ws2 := ws2)
                                 (tail := rstrip (ws3 ++ value ++ ws4));
      try eassumption.
    + rewrite Hs. cbn [app]. discriminate.
    + rewrite Hs. unfold startswith in Hc |- *.
      change (lit "#") with [35%N] in Hc |- *.
      cbn [app strip_prefix] in Hc |- *.
      destruct (35 =? a)%N; [discriminate Hc | reflexivity].
    + rewrite Hs.
      assert (Hsw : startswith (lit "export ")
                      (((a :: key') ++ ws2)
                       ++ EQUALS :: rstrip (ws3 ++ value ++ ws4)) = false).
      { unfold startswith in He |- *.
        rewrite strip_prefix_sign; [reflexivity | |].
        - vm_compute. intuition discriminate.
        - rewrite <- app_assoc.
          destruct (strip_prefix (lit "export ") _);
            [discriminate He | reflexivity]. }
      rewrite Hsw. reflexivity.
Qed.

Lemma parse_env_lines_assignment_witness :
  parse_env_lines (sample_host [] 0)
    [lit " " ++ (lit "export " ++ lit " ") ++ lit "MODE" ++ lit " "
       ++ EQUALS :: lit " " ++ lit "a=b" ++ lit "  "] ∅
  = Ok (<[lit "MODE" := lit "a=b"]> ∅)
  /\ parse_env_lines (sample_host [] 0)
       [[] ++ [] ++ lit "MODE" ++ [] ++ EQUALS :: [] ++ [] ++ []] ∅
     = Ok (<[lit "MODE" := []]> ∅).
Proof.
  assert (Hsp1 : Forall (fun c => is_space c = true) (lit " ")).
  { repeat constructor. }
  assert (Hsp2 : Forall (fun c => is_space c = true) (lit "  ")).
  { repeat constructor. }
  assert (Hnot : ~ In EQUALS (lit "MODE")).
  { vm_compute. intuition discriminate. }
  split.
  - apply (parse_env_lines_assignment (sample_host [] 0) ∅ true (lit " ")
             (lit " ") (lit " ") (lit " ") (lit "  ") (lit "MODE")
             (lit "a=b") [] Hsp1 Hsp1 Hsp1 Hsp1 Hsp2
             ltac:(discriminate) ltac:(vm_compute; reflexivity) Hnot
             ltac:(vm_compute; reflexivity) ltac:(vm_compute; reflexivity)
             ltac:(vm_compute; reflexivity) ltac:(discriminate)).
  - apply (parse_env_lines_assignment (sample_host [] 0) ∅ false [] [] [] []
             [] (lit "MODE") [] [] (List.Forall_nil _) (List.Forall_nil _)
             (List.Forall_nil _) (List.Forall_nil _) (List.Forall_nil _)
             ltac:(discriminate) ltac:(vm_compute; reflexivity) Hnot
             ltac:(vm_compute; reflexivity) ltac:(vm_compute; reflexivity)
             ltac:(vm_compute; reflexivity)
             ltac:(intros _; split; vm_compute; reflexivity)).
Defined.

(** X10: every key that parsing adds is a non-empty string without
    whitespace at its ends. *)
Theorem parse_env_lines_keys (h : Host) (lines : list str)
    (env0 env1 : environment) (key : str) :
  parse_env_lines h lines env0 = Ok env1 ->
  is_Some (env1 !! key) ->
  is_Some (env0 !! key) \/ (key <> [] /\ trimmed key).
Proof.
  revert env0. induction lines as [|raw_line lines IH]; intros env0.
  - intros [= <-]. auto.
  - cbn [parse_env_lines].
    destruct (_ || _); [apply IH|].
    destruct (split_at_equals _) as [[k v]|]; [|discriminate].
    destruct (bool_decide_reflect (strip k = [])) as [|Hk]; [discriminate|].
    intros Hp Hsome. destruct (IH _ Hp Hsome) as [Hin|Hnew]; [|auto].
    rewrite lookup_insert in Hin.
    destruct (decide (strip k = key)) as [<-|]; [|auto].
    right. split; [exact Hk | apply strip_idempotent].
Qed.

Lemma parse_env_lines_keys_witness :
  is_Some ((∅ : environment) !! lit "MODE")
  \/ (lit "MODE" <> [] /\ trimmed (lit "MODE")).
Proof.
  apply (parse_env_lines_keys (sample_host [] 0) [lit "  MODE = fast "] ∅
           (<[lit "MODE" := lit "fast"]> ∅)).
  - vm_compute. reflexivity.
  - rewrite lookup_insert_eq. eauto.
Defined.

(** * More of [cmd_run] *)

(** What a successful preparation has established. *)
Lemma cmd_run_prepare_Ok h args w p w1 :
  cmd_run_prepare h args w = (Ok p, w1) ->
  exists_ (script_path p) w = true
  /\ workdir p = chosen_workdir h args w
  /\ match args_vars args with
     | Some vars =>
         exists parsed,
           parse_env_file h vars (after_workdir h args w)
           = (Ok parsed, after_workdir h args w)
           /\ env p = parsed ∪ environ h
     | None => env p = environ h
     end
  /\ match args_attachments args with
     | Some attachments =>
         copy_attachments attachments (workdir p) (after_workdir h args w)
         = (Ok tt, w1)
     | None => w1 = after_workdir h args w
     end
  /\ command_line (script_path p) = Some (cmd p).
Proof.
  intros Hprep. pose proof (cmd_run_prepare_script_path _ _ _ _ _ Hprep) as Hsp.
  revert Hprep. unfold cmd_run_prepare, bindM at 1.
  rewrite <- Hsp. clear Hsp.
  destruct (exists_ (script_path p) w); cbn [negb]; [|discriminate].
  unfold bindM at 1.
  assert (Hwd : exists w0,
    match args_workdir args with
    | Some d => ret (resolve h d)
    | None => make_temp_dir h
    end w = (Ok (chosen_workdir h args w), w0)
    /\ after_workdir h args w
       = {| dirs := dirs w0
                    ∪ list_to_set (ancestors_and_self (chosen_workdir h args w));
            files := files w0; spawned := spawned w0 |}).
  { unfold after_workdir, chosen_workdir.
    destruct (args_workdir args); eexists; (split; reflexivity). }
  destruct Hwd as (w0 & -> & Haw).
  unfold bindM at 1. unfold mkdir at 1.
  destruct (is_file _ w0); [discriminate|].
  destruct (existsb _ _); [discriminate|].
  rewrite <- Haw. clear Haw.
  generalize (after_workdir h args w) as wa.
  generalize (chosen_workdir h args w) as wd. intros wd wa.
  unfold bindM at 1.
  match goal with
  | |- match ?m wa with _ => _ end = _ -> _ =>
      destruct (m wa) as [[env0| e0 |s] w2] eqn:Henv;
        [| discriminate | discriminate]
  end.
  assert (Hvars : w2 = wa
    /\ match args_vars args with
       | Some vars =>
           exists parsed,
             parse_env_file h vars wa = (Ok parsed, wa)
             /\ env0 = parsed ∪ environ h
       | None => env0 = environ h
       end).
  { destruct (args_vars args) as [vars|].
    - unfold bindM in Henv.
      destruct (parse_env_file h vars wa) as [[parsed| ?|?] w3] eqn:Hp;
        try discriminate.
      pose proof (parse_env_file_reads _ _ _ _ _ Hp) as [-> _].
      unfold ret in Henv. injection Henv as <- <-.
      split; [reflexivity|]. exists parsed. split; reflexivity.
    - unfold ret in Henv. injection Henv as <- <-. split; reflexivity. }
  destruct Hvars as [-> Hvars]. clear Henv.
  unfold bindM at 1.
  match goal with
  | |- match ?m wa with _ => _ end = _ -> _ =>
      destruct (m wa) as [[[]| e0 |s] w3] eqn:Hatt;
        [| discriminate | discriminate]
  end.
  unfold bindM, command_line.
  destruct (String.eqb _ ".ps1").
  - unfold ret. intros [= <- <-]. cbn [workdir env cmd script_path].
    repeat split; try assumption; try reflexivity.
    destruct (args_attachments args); [exact Hatt|].
    unfold ret in Hatt. congruence.
  - destruct (String.eqb _ ".sh"); [|discriminate].
    unfold ret. intros [= <- <-]. cbn [workdir env cmd script_path].
    repeat split; try assumption; try reflexivity.
    destruct (args_attachments args); [exact Hatt|].
    unfold ret in Hatt. congruence.
Qed.

Lemma capture_paths_differ p : stdout_path p <> stderr_path p.
Proof.
  unfold stdout_path, stderr_path. intros E.
  apply app_inv_head in E. discriminate.
Qed.

(** What [cmd_run_spawn] does, whether the interpreter is found or
    not. *)
Lemma cmd_run_spawn_cases h p w1 r w2 :
  cmd_run_spawn h p w1 = (r, w2) ->
  (exists what, r = Uncaught what)
  \/ let opened :=
       {| dirs := dirs w1;
          files := <[stderr_path p := []]> (<[stdout_path p := []]> (files w1));
          spawned := spawned w1 |} in
     match child h opened (cmd p) (workdir p) (env p) with
     | None => r = Raise (CommandNotFound (hd "" (cmd p))) /\ w2 = opened
     | Some (returncode, out, err) =>
         r = Ok returncode
         /\ w2 = {| dirs := dirs w1;
                    files := <[stderr_path p := err]>
                               (<[stdout_path p := out]> (files opened));
                    spawned := spawned w1 ++
                      [{| p_cmd := cmd p; p_cwd := workdir p;
                          p_env := env p; p_returncode := returncode |}] |}
     end.
Proof.
  unfold cmd_run_spawn, bindM, open_wb.
  destruct (is_dir (stdout_path p) w1); [intros [= <- <-]; eauto|].
  cbn [dirs files spawned].
  destruct (is_dir (stderr_path p) _); [intros [= <- <-]; eauto|].
  cbn [dirs files spawned]. intros H. right. cbv zeta.
  destruct (child h _ _ _ _) as [[[rc out] err]|];
    injection H as <- <-; split; reflexivity.
Qed.

(** X11: the environment of the child is the ambient one overlaid with
    the override file: a key of the file takes the file's value, any
    other key keeps the ambient value; without an override file it is the
    ambient environment. *)
Theorem run_environment_overrides (h : Host) (args : Namespace) (w w1 : World)
    (p : Prepared) (key : str) :
  cmd_run_prepare h args w = (Ok p, w1) ->
  match args_vars args with
  | Some vars =>
      exists parsed,
        parse_env_file h vars (after_workdir h args w)
        = (Ok parsed, after_workdir h args w)
        /\ env p !! key = match parsed !! key with
                          | Some value => Some value
                          | None => environ h !! key
                          end
  | None => env p !! key = environ h !! key
  end.
Proof.
  intros Hprep.
  apply cmd_run_prepare_Ok in Hprep as (_ & _ & Henv & _).
  destruct (args_vars args) as [vars|].
  - destruct Henv as (parsed & Hp & ->). exists parsed.
    split; [exact Hp|]. rewrite lookup_union.
    destruct (parsed !! key), (environ h !! key); reflexivity.
  - rewrite Henv. reflexivity.
Qed.

Lemma run_environment_overrides_witness :
  exists parsed,
    parse_env_file sample_host_bare ["/"; "repo"; "run.env"]
      (after_workdir sample_host_bare sample_args_vars sample_world_vars)
    = (Ok parsed,
       after_workdir sample_host_bare sample_args_vars sample_world_vars)
    /\ env sample_prepared_vars !! lit "MODE"
       = match parsed !! lit "MODE" with
         | Some value => Some value
         | None => environ sample_host_bare !! lit "MODE"
         end.
Proof.
  exact (run_environment_overrides sample_host_bare sample_args_vars
           sample_world_vars _ sample_prepared_vars (lit "MODE")
           (run_result _ _ ltac:(vm_compute; reflexivity))).
Defined.

Example override_file_wins :
  env sample_prepared_vars !! lit "MODE" = Some (lit "fast")
  /\ env sample_prepared_vars !! lit "HOME" = Some (lit "/root").
Proof. split; vm_compute; reflexivity. Qed.



(** X13: when the interpreter is not installed, the run stops with
    [CommandNotFound] naming [pwsh] or [bash], [main] exits with 1, the
    two capture files exist and are empty, and no process is
    recorded. *)
Theorem interpreter_missing (h : Host) (args : Namespace) (w w1 w2 : World)
    (p : Prepared) (e : RmmError) :
  cmd_run_prepare h args w = (Ok p, w1) ->
  cmd_run_spawn h p w1 = (Raise e, w2) ->
  (e = CommandNotFound "pwsh" \/ e = CommandNotFound "bash")
  /\ main_run h args w = (Ok 1%Z, w2)
  /\ files w2 !! stdout_path p = Some []
  /\ files w2 !! stderr_path p = Some []
  /\ dirs w2 = dirs w1
  /\ spawned w2 = spawned w1.
Proof.
  intros Hprep Hspawn.
  assert (Hmain : main_run h args w = (Ok 1%Z, w2)).
  { unfold main_run, cmd_run, bindM. rewrite Hprep, Hspawn. reflexivity. }
  apply cmd_run_prepare_Ok in Hprep as (_ & _ & _ & _ & Hcmd).
  apply cmd_run_spawn_cases in Hspawn as [[what H]|H]; [discriminate|].
  cbv zeta in H.
  destruct (child h _ _ _ _) as [[[rc out] err]|].
  { destruct H as [H _]. discriminate. }
  destruct H as [[= ->] ->].
  pose proof (capture_paths_differ p) as Hne.
  cbn [files dirs spawned]. repeat split; try exact Hmain.
  - unfold command_line in Hcmd.
    destruct (String.eqb _ ".ps1"); [injection Hcmd as <-; left; reflexivity|].
    destruct (String.eqb _ ".sh"); [injection Hcmd as <-; right; reflexivity|].
    discriminate.
  - rewrite lookup_insert_ne by congruence. apply lookup_insert_eq.
  - apply lookup_insert_eq.
Qed.

Lemma interpreter_missing_witness :
  main_run sample_host_bare sample_args_vars sample_world_vars
  = (Ok 1%Z, snd (cmd_run_spawn sample_host_bare sample_prepared_vars
                    (snd (cmd_run_prepare sample_host_bare sample_args_vars
                            sample_world_vars)))).
Proof.
  exact (proj1 (proj2 (interpreter_missing sample_host_bare sample_args_vars
           sample_world_vars _ _ sample_prepared_vars
           (CommandNotFound "bash")
           (run_result _ _ ltac:(vm_compute; reflexivity))
           (run_result _ _ ltac:(vm_compute; reflexivity))))).
Defined.

Lemma spawn_captures_streams_aux h p w1 w2 returncode :
  cmd_run_spawn h p w1 = (Ok returncode, w2) ->
  exists out, files w2 !! stdout_path p = Some out.
Proof.
  intros H. apply cmd_run_spawn_cases in H as [[what H]|H]; [discriminate|].
  cbv zeta in H.
  destruct (child h _ _ _ _) as [[[rc out] err]|].
  2: { destruct H as [H _]. discriminate. }
  destruct H as [_ ->]. exists out. cbn [files].
  pose proof (capture_paths_differ p) as Hne.
  rewrite lookup_insert_ne by congruence. apply lookup_insert_eq.
Qed.

(** X14: once the child has run, [run] exits with 0 exactly when the
    child exited with 0 and either no validation is performed or the
    captured output is valid. *)
Theorem run_exit_zero_iff (h : Host) (args : Namespace) (w w1 w2 : World)
    (p : Prepared) (returncode : Z) :
  cmd_run_prepare h args w = (Ok p, w1) ->
  cmd_run_spawn h p w1 = (Ok returncode, w2) ->
  cmd_run h args w = (Ok 0%Z, w2)
  <-> returncode = 0%Z
      /\ (should_validate (args_validate_monitor args) (script_path p) = false
          \/ exists content,
               files w2 !! stdout_path p = Some content
               /\ validate_monitor_output (decode_utf8_replace h content)
                    (args_output_var args)
                  = Ok {| ok := true; errors := [] |}).
Proof.
  intros Hprep Hspawn.
  destruct (spawn_captures_streams_aux h p w1 w2 returncode Hspawn)
    as (out & Hout).
  unfold cmd_run, bindM. rewrite Hprep, Hspawn.
  unfold cmd_run_finish, bindM, read_bytes, lift, ret.
  destruct (should_validate _ _).
  - rewrite Hout.
    destruct (validate_monitor_output _ _) as [v| |] eqn:Hv.
    + assert (Hshape : ok v = true -> v = {| ok := true; errors := [] |}).
      { unfold validate_monitor_output, bind in Hv.
        destruct (validate_output_var _) as [name| |]; try discriminate.
        injection Hv as <-. intros Hok.
        destruct (validate_lines_shape (enumerate (splitlines
                    (decode_utf8_replace h out))) name) as [[_ He]|[Hf _]].
        - destruct (validate_lines _ _) as [o es]. simpl in *. subst.
          reflexivity.
        - congruence. }
      destruct (ok v) eqn:Hok.
      * split.
        -- intros [= ->]. split; [reflexivity|]. right. exists out.
           split; [reflexivity|]. rewrite Hv. f_equal. apply Hshape.
           reflexivity.
        -- intros [-> _]. reflexivity.
      * split.
        -- destruct (Z.eqb_spec returncode 0); intros [= E]; congruence.
        -- intros [-> [|(content & Hc & Hvc)]]; [discriminate|].
           injection Hc as <-. rewrite Hv in Hvc. injection Hvc as ->.
           discriminate.
    + split; [discriminate|].
      intros [_ [|(content & Hc & Hvc)]]; [discriminate|].
      injection Hc as <-. rewrite Hv in Hvc. discriminate.
    + split; [discriminate|].
      intros [_ [|(content & Hc & Hvc)]]; [discriminate|].
      injection Hc as <-. rewrite Hv in Hvc. discriminate.
  - split.
    + intros [= ->]. auto.
    + intros [-> _]. reflexivity.
Qed.

Lemma run_exit_zero_iff_witness :
  cmd_run (sample_host sample_ok 0) (sample_args sample_monitor) sample_world
  = (Ok 0%Z, sample_after_spawn (sample_host sample_ok 0)
               (sample_args sample_monitor)).
Proof.
  apply (proj2 (run_exit_zero_iff (sample_host sample_ok 0)
                  (sample_args sample_monitor) sample_world
                  (sample_after_prepare _ _) (sample_after_spawn _ _)
                  sample_prepared 0%Z
                  (run_result _ _ ltac:(vm_compute; reflexivity))
                  (run_result _ _ ltac:(vm_compute; reflexivity)))).
  split; [reflexivity|]. right. exists (encode sample_ok).
  split; vm_compute; reflexivity.
Defined.

(** X15: for a script that exits with 0 and is validated, [run] returns
    what [validate-monitor-output] returns on the captured [stdout.txt]
    with the same output variable: 0, 2, or the same error. *)
Theorem run_agrees_with_validate_command (h : Host) (args : Namespace)
    (w w1 w2 : World) (p : Prepared) (stdin : str) :
  cmd_run_prepare h args w = (Ok p, w1) ->
  cmd_run_spawn h p w1 = (Ok 0%Z, w2) ->
  should_validate (args_validate_monitor args) (script_path p) = true ->
  cmd_run h args w
  = cmd_validate_monitor_output h stdin (Some (stdout_path p))
      (args_output_var args) w2.
Proof.
  intros Hprep Hspawn Hsv.
  unfold cmd_run, bindM at 1 2. rewrite Hprep, Hspawn.
  unfold cmd_run_finish, cmd_validate_monitor_output. rewrite Hsv.
  unfold bindM, read_bytes, lift, ret.
  destruct (files w2 !! stdout_path p); [|reflexivity].
  destruct (validate_monitor_output _ _) as [v| |]; reflexivity.
Qed.

Lemma run_agrees_with_validate_command_witness :
  cmd_run (sample_host (lit "no markers") 0) (sample_args sample_monitor)
    sample_world
  = cmd_validate_monitor_output (sample_host (lit "no markers") 0) []
      (Some (stdout_path sample_prepared)) (lit "Status")
      (sample_after_spawn (sample_host (lit "no markers") 0)
         (sample_args sample_monitor)).
Proof.
  exact (run_agrees_with_validate_command
           (sample_host (lit "no markers") 0) (sample_args sample_monitor)
           sample_world (sample_after_prepare _ _) (sample_after_spawn _ _)
           sample_prepared []
           (run_result _ _ ltac:(vm_compute; reflexivity))
           (run_result _ _ ltac:(vm_compute; reflexivity))
           ltac:(vm_compute; reflexivity)).
Defined.

(** * [copy_attachments] *)










(** * [normalize_kebab] *)

Example normalize_kebab_sample :
  normalize_kebab sample_lowering (lit "  My Disk -- Check (v2)! ")
  = Returns (lit "my-disk-check-v2")
  /\ normalize_kebab sample_lowering (lit " --- ")
     = Raises (InvalidName (lit " --- ")).
Proof. split; vm_compute; reflexivity. Qed.

Lemma lstrip_chars_spec chars s :
  exists hs, s = hs ++ lstrip_chars chars s
    /\ Forall (fun c => c ∈ chars) hs
    /\ (lstrip_chars chars s = []
        \/ exists a r, lstrip_chars chars s = a :: r /\ a ∉ chars).
Proof.
  induction s as [|c s (hs & Hs & Hhs & Hend)]; simpl.
  - exists []. repeat split; auto.
  - destruct (bool_decide_reflect (c ∈ chars)) as [Hc|Hc].
    + exists (c :: hs). simpl. rewrite <- Hs.
      repeat split; [constructor; assumption | exact Hend].
    + exists []. repeat split; [constructor|]. right. eauto.
Qed.

Lemma strip_chars_spec chars s :
  exists hs1 hs2, s = hs1 ++ strip_chars chars s ++ hs2
    /\ Forall (fun c => c ∈ chars) hs1
    /\ Forall (fun c => c ∈ chars) hs2
    /\ (strip_chars chars s = []
        \/ (exists a, strip_chars chars s = [a] /\ a ∉ chars)
        \/ (exists a mid b, strip_chars chars s = a :: mid ++ [b]
                            /\ (a ∉ chars) /\ (b ∉ chars))).
Proof.
  destruct (lstrip_chars_spec chars s) as (hs1 & Hs & Hhs1 & Hl).
  destruct (lstrip_chars_spec chars (rev (lstrip_chars chars s)))
    as (hs2 & Hr & Hhs2 & Hrl).
  assert (Hls : lstrip_chars chars s
                = rstrip_chars chars (lstrip_chars chars s) ++ rev hs2).
  { unfold rstrip_chars. rewrite <- rev_app_distr, <- Hr, rev_involutive.
    reflexivity. }
  exists hs1, (rev hs2). unfold strip_chars.
  split; [rewrite <- Hls; exact Hs|].
  split; [exact Hhs1|]. split; [apply Forall_rev; exact Hhs2|].
  destruct Hrl as [Hnil|(b & r & Hb & Hbs)].
  - left. unfold rstrip_chars. rewrite Hnil. reflexivity.
  - right. unfold rstrip_chars. rewrite Hb. simpl.
    destruct Hl as [Hnil|(a & t & Ha & Has)].
    { rewrite Hnil in Hb. discriminate. }
    assert (Hrs : rev r ++ [b] = rstrip_chars chars (lstrip_chars chars s)).
    { unfold rstrip_chars. rewrite Hb. reflexivity. }
    rewrite <- Hrs in Hls. rewrite Ha in Hls.
    destruct (rev r) as [|a' mid] eqn:Hrev.
    + left. exists b. auto.
    + right. exists a', mid, b. simpl in Hls. injection Hls as <- _.
      auto.
Qed.

Lemma lstrip_chars_head chars a s :
  a ∉ chars -> lstrip_chars chars (a :: s) = a :: s.
Proof.
  intros Ha. simpl. rewrite bool_decide_eq_false_2 by exact Ha. reflexivity.
Qed.

(** A string whose two ends are outside [chars] is left as it is. *)
Lemma strip_chars_fixed chars a mid b :
  a ∉ chars -> b ∉ chars ->
  strip_chars chars [a] = [a]
  /\ strip_chars chars (a :: mid ++ [b]) = a :: mid ++ [b].
Proof.
  intros Ha Hb. unfold strip_chars, rstrip_chars.
  rewrite (lstrip_chars_head chars a []) by exact Ha.
  rewrite (lstrip_chars_head chars a (mid ++ [b])) by exact Ha. split.
  - simpl. rewrite bool_decide_eq_false_2 by exact Ha. reflexivity.
  - change (a :: mid ++ [b]) with ((a :: mid) ++ [b]).
    rewrite rev_app_distr.
    change (rev [b] ++ rev (a :: mid)) with (b :: rev (a :: mid)).
    rewrite (lstrip_chars_head chars b (rev (a :: mid))) by exact Hb.
    change (b :: rev (a :: mid)) with ([b] ++ rev (a :: mid)).
    rewrite rev_app_distr, rev_involutive. reflexivity.
Qed.

Lemma lower_alnum_not_hyphen c : is_lower_alnum c = true -> c <> HYPHEN.
Proof.
  unfold is_lower_alnum, HYPHEN. intros H ->. vm_compute in H. discriminate.
Qed.

Lemma sub_non_alnum_single in_run s :
  single_hyphens in_run (sub_non_alnum in_run s) = true.
Proof.
  revert in_run. induction s as [|c s IH]; intros in_run; simpl.
  - reflexivity.
  - destruct (is_lower_alnum c) eqn:Hc.
    + simpl. apply lower_alnum_not_hyphen in Hc.
      destruct (N.eqb_spec c HYPHEN); [contradiction | apply IH].
    + destruct in_run; [apply IH|]. simpl. apply IH.
Qed.

Lemma sub_non_alnum_kebab in_run s :
  Forall kebab_char (sub_non_alnum in_run s).
Proof.
  revert in_run. induction s as [|c s IH]; intros in_run; simpl.
  - constructor.
  - destruct (is_lower_alnum c) eqn:Hc.
    + constructor; [left; exact Hc | apply IH].
    + destruct in_run; [apply IH|].
      constructor; [right; reflexivity | apply IH].
Qed.

Lemma single_hyphens_weaken p s :
  single_hyphens p s = true -> single_hyphens false s = true.
Proof.
  destruct s as [|c s]; simpl; [auto|].
  destruct (c =? HYPHEN)%N; [|auto].
  destruct p; simpl; [discriminate | auto].
Qed.

Lemma single_hyphens_app p x y :
  single_hyphens p (x ++ y) = true ->
  single_hyphens p x = true /\ single_hyphens false y = true.
Proof.
  revert p. induction x as [|c x IH]; intros p; simpl.
  - intros H. split; [reflexivity | exact (single_hyphens_weaken _ _ H)].
  - destruct (c =? HYPHEN)%N.
    + destruct p; simpl; [discriminate|]. apply IH.
    + apply IH.
Qed.

Lemma single_hyphens_no_double p s :
  single_hyphens p s = true -> no_double_hyphen s.
Proof.
  intros H l1 l2 ->. revert p H.
  induction l1 as [|c l1 IH]; intros p; simpl.
  - rewrite andb_false_r. discriminate.
  - destruct (c =? HYPHEN)%N.
    + destruct p; simpl; [discriminate | apply IH].
    + apply IH.
Qed.

Lemma sub_hyphens_fixed p s :
  single_hyphens p s = true -> sub_hyphens p s = s.
Proof.
  revert p. induction s as [|c s IH]; intros p; simpl; [reflexivity|].
  destruct (N.eqb_spec c HYPHEN) as [->|].
  - destruct p; simpl; [discriminate|]. intros H. rewrite IH by exact H.
    reflexivity.
  - intros H. rewrite IH by exact H. reflexivity.
Qed.

Lemma sub_non_alnum_fixed p s :
  single_hyphens p s = true -> Forall kebab_char s ->
  sub_non_alnum p s = s.
Proof.
  revert p. induction s as [|c s IH]; intros p; simpl; [reflexivity|].
  intros H Hk. apply Forall_cons in Hk as [Hc Hk].
  destruct (N.eqb_spec c HYPHEN) as [->|Hne].
  - change (is_lower_alnum HYPHEN) with false. cbv iota.
    destruct p; simpl in H; [discriminate|].
    rewrite IH by assumption. reflexivity.
  - destruct Hc as [Hc|Hc]; [|contradiction]. rewrite Hc.
    rewrite IH by assumption. reflexivity.
Qed.

Lemma lower_from_kebab ul whole i s :
  Forall kebab_char s -> lower_from ul whole i s = s.
Proof.
  intros H. revert i. induction H as [|c s Hc _ IH]; intros i; simpl.
  - reflexivity.
  - rewrite IH.
    assert (Hr : (c <? 128)%N = true /\ (65 <=? c)%N && (c <=? 90)%N = false).
    { destruct Hc as [Hc| ->]; [|split; reflexivity].
      unfold is_lower_alnum in Hc.
      rewrite orb_true_iff, !andb_true_iff, !N.leb_le in Hc.
      split; [apply N.ltb_lt; lia|].
      apply andb_false_iff. rewrite !N.leb_gt. lia. }
    destruct Hr as [-> ->]. reflexivity.
Qed.

Lemma lower_alnum_not_space c : is_lower_alnum c = true -> is_space c = false.
Proof.
  intros H. apply word_char_not_space.
  unfold is_lower_alnum, is_word_char in *.
  rewrite !orb_true_iff, !andb_true_iff in *. tauto.
Qed.

(** What [normalize_kebab] computes before its emptiness test. *)
Lemma kebab_value_shape ul raw :
  let value := strip_chars [HYPHEN]
                 (sub_non_alnum false (str_lower ul (strip raw))) in
  sub_hyphens false value = value
  /\ Forall kebab_char value
  /\ single_hyphens false value = true
  /\ (value = []
      \/ (exists a, value = [a] /\ is_lower_alnum a = true)
      \/ (exists a mid b, value = a :: mid ++ [b]
            /\ is_lower_alnum a = true /\ is_lower_alnum b = true)).
Proof.
  cbv zeta. set (x := str_lower ul (strip raw)).
  destruct (strip_chars_spec [HYPHEN] (sub_non_alnum false x))
    as (hs1 & hs2 & Hs & _ & _ & Hends).
  pose proof (sub_non_alnum_kebab false x) as Hk.
  pose proof (sub_non_alnum_single false x) as Hsingle.
  rewrite Hs in Hk, Hsingle.
  apply Forall_app in Hk as [_ Hk]. apply Forall_app in Hk as [Hk _].
  apply single_hyphens_app in Hsingle as [_ Hsingle].
  apply single_hyphens_app in Hsingle as [Hsingle _].
  split; [apply sub_hyphens_fixed; exact Hsingle|].
  split; [exact Hk|]. split; [exact Hsingle|].
  assert (Hal : forall c, In c (strip_chars [HYPHEN] (sub_non_alnum false x))
                          -> c ∉ [HYPHEN] -> is_lower_alnum c = true).
  { intros c Hin Hc. rewrite List.Forall_forall in Hk.
    destruct (Hk c Hin) as [Hca | ->]; [exact Hca|].
    exfalso. apply Hc. left. }
  destruct Hends as [E|[(a & E & Ha)|(a & mid & b & E & Ha & Hb)]].
  - left. exact E.
  - right. left. exists a. split; [exact E|].
    apply Hal; [rewrite E; left; reflexivity | exact Ha].
  - right. right. exists a, mid, b. split; [exact E|]. split.
    + apply Hal; [rewrite E; left; reflexivity | exact Ha].
    + apply Hal; [|exact Hb]. rewrite E. right. apply in_or_app. right.
      left. reflexivity.
Qed.

(** X18: a name that [normalize_kebab] returns is not empty, holds only
    small letters, digits and hyphens, starts and ends with a letter or
    digit, and has no two hyphens side by side. *)
Theorem normalize_kebab_shape (unicode_lower : lowering) (raw value : str) :
  normalize_kebab unicode_lower raw = Returns value ->
  value <> []
  /\ Forall kebab_char value
  /\ is_lower_alnum (hd HYPHEN value) = true
  /\ is_lower_alnum (List.last value HYPHEN) = true
  /\ no_double_hyphen value.
Proof.
  unfold normalize_kebab. cbv zeta.
  destruct (kebab_value_shape unicode_lower raw)
    as (Hfix & Hk & Hsingle & Hends).
  cbv zeta in Hfix, Hk, Hsingle, Hends. rewrite Hfix.
  destruct (strip_chars _ _) as [|c t] eqn:E; [discriminate|].
  intros [= <-]. split; [discriminate|]. split; [exact Hk|].
  split; [|split; [|exact (single_hyphens_no_double _ _ Hsingle)]].
  - destruct Hends as [?|[(a & Ea & Ha)|(a & mid & b & Ea & Ha & _)]];
      [discriminate | |]; injection Ea as -> _; exact Ha.
  - destruct Hends as [?|[(a & Ea & Ha)|(a & mid & b & Ea & _ & Hb)]];
      [discriminate | |].
    + rewrite Ea. exact Ha.
    + rewrite Ea. change (a :: mid ++ [b]) with ((a :: mid) ++ [b]).
      rewrite last_last. exact Hb.
Qed.

Lemma normalize_kebab_shape_witness :
  lit "my-disk-check-v2" <> []
  /\ Forall kebab_char (lit "my-disk-check-v2")
  /\ is_lower_alnum (hd HYPHEN (lit "my-disk-check-v2")) = true
  /\ is_lower_alnum (List.last (lit "my-disk-check-v2") HYPHEN) = true
  /\ no_double_hyphen (lit "my-disk-check-v2").
Proof.
  apply (normalize_kebab_shape sample_lowering
           (lit "  My Disk -- Check (v2)! ")).
  vm_compute. reflexivity.
Defined.

(** X19: a name that [normalize_kebab] returns is returned unchanged
    when normalized again. *)
Theorem normalize_kebab_idempotent (unicode_lower unicode_lower' : lowering)
    (raw value : str) :
  normalize_kebab unicode_lower raw = Returns value ->
  normalize_kebab unicode_lower' value = Returns value.
Proof.
  unfold normalize_kebab at 1. cbv zeta.
  destruct (kebab_value_shape unicode_lower raw)
    as (Hfix & Hk & Hsingle & Hends).
  cbv zeta in Hfix, Hk, Hsingle, Hends. rewrite Hfix.
  destruct (strip_chars _ _) as [|c t] eqn:E; [discriminate|].
  intros [= <-].
  assert (Hstrip : strip (c :: t) = c :: t
                   /\ strip_chars [HYPHEN] (c :: t) = c :: t).
  { destruct Hends as [?|[(a & Ea & Ha)|(a & mid & b & Ea & Ha & Hb)]];
      [discriminate | |]; rewrite Ea.
    - split.
      + exact (proj1 (strip_padded [] [] a [] a (List.Forall_nil _)
                        (List.Forall_nil _) (lower_alnum_not_space _ Ha)
                        (lower_alnum_not_space _ Ha))).
      + apply (strip_chars_fixed [HYPHEN] a [] a).
        * intros Hin. apply list_elem_of_singleton in Hin.
          exact (lower_alnum_not_hyphen _ Ha Hin).
        * intros Hin. apply list_elem_of_singleton in Hin.
          exact (lower_alnum_not_hyphen _ Ha Hin).
    - split.
      + pose proof (proj2 (strip_padded [] [] a mid b (List.Forall_nil _)
                        (List.Forall_nil _) (lower_alnum_not_space _ Ha)
                        (lower_alnum_not_space _ Hb))) as Hp.
        simpl in Hp. rewrite app_nil_r in Hp. exact Hp.
      + apply (strip_chars_fixed [HYPHEN] a mid b).
        * intros Hin. apply list_elem_of_singleton in Hin.
          exact (lower_alnum_not_hyphen _ Ha Hin).
        * intros Hin. apply list_elem_of_singleton in Hin.
          exact (lower_alnum_not_hyphen _ Hb Hin). }
  destruct Hstrip as [Hs Hsc].
  unfold normalize_kebab, str_lower. cbv zeta.
  rewrite Hs, (lower_from_kebab _ _ _ _ Hk).
  rewrite (sub_non_alnum_fixed _ _ Hsingle Hk), Hsc.
  rewrite (sub_hyphens_fixed _ _ Hsingle). reflexivity.
Qed.

Lemma normalize_kebab_idempotent_witness :
  normalize_kebab sample_lowering (lit "my-disk-check-v2")
  = Returns (lit "my-disk-check-v2").
Proof.
  apply (normalize_kebab_idempotent sample_lowering sample_lowering
           (lit "  My Disk -- Check (v2)! ")).
  vm_compute. reflexivity.
Defined.

(** X20: the second substitution of [normalize_kebab], of runs of
    hyphens, never changes anything: after the first substitution no two
    hyphens are side by side. *)
Theorem normalize_kebab_second_sub_idle (unicode_lower : lowering)
    (raw : str) :
  let value := strip_chars [HYPHEN]
                 (sub_non_alnum false (str_lower unicode_lower (strip raw))) in
  sub_hyphens false value = value.
Proof. exact (proj1 (kebab_value_shape unicode_lower raw)). Qed.

Lemma sub_non_alnum_none in_run s :
  Forall (fun c => is_lower_alnum c = false) s ->
  sub_non_alnum in_run s = [] \/ sub_non_alnum in_run s = [HYPHEN].
Proof.
  intros H. revert in_run. induction H as [|c s Hc _ IH]; intros in_run.
  - left. reflexivity.
  - simpl. rewrite Hc. destruct in_run; [apply IH|].
    destruct s as [|d s]; [right; reflexivity|].
    destruct (IH true) as [E|E]; rewrite E; [right; reflexivity|].
    exfalso. pose proof (sub_non_alnum_single true (d :: s)) as Hs.
    rewrite E in Hs. discriminate.
Qed.

Lemma sub_non_alnum_keeps in_run s c :
  In c s -> is_lower_alnum c = true -> In c (sub_non_alnum in_run s).
Proof.
  intros Hin Hc. revert in_run.
  induction s as [|d s IH]; intros in_run; [contradiction|].
  simpl. destruct Hin as [->|Hin].
  - rewrite Hc. left. reflexivity.
  - destruct (is_lower_alnum d); [right; apply IH; exact Hin|].
    destruct in_run; [|right]; apply IH; exact Hin.
Qed.

(** X21: [normalize_kebab] raises exactly when the trimmed, lowered name
    holds no small letter and no digit; the error carries the name as it
    was given. *)
Theorem normalize_kebab_raises_iff (unicode_lower : lowering) (raw : str)
    (e : ScaffoldError) :
  normalize_kebab unicode_lower raw = Raises e
  <-> e = InvalidName raw
      /\ Forall (fun c => is_lower_alnum c = false)
           (str_lower unicode_lower (strip raw)).
Proof.
  unfold normalize_kebab. cbv zeta.
  destruct (kebab_value_shape unicode_lower raw) as (Hfix & _).
  cbv zeta in Hfix. rewrite Hfix. clear Hfix.
  set (x := str_lower unicode_lower (strip raw)).
  destruct (strip_chars_spec [HYPHEN] (sub_non_alnum false x))
    as (hs1 & hs2 & Hs & Hh1 & Hh2 & _).
  split.
  - destruct (strip_chars _ _) as [|c t]; [|discriminate].
    intros [= <-]. split; [reflexivity|].
    apply List.Forall_forall. intros c Hin.
    destruct (is_lower_alnum c) eqn:Hc; [|reflexivity].
    pose proof (sub_non_alnum_keeps false x c Hin Hc) as Hkept.
    rewrite Hs in Hkept. simpl in Hkept.
    assert (Hall : Forall (fun c => c ∈ [HYPHEN]) (hs1 ++ hs2)).
    { apply Forall_app. auto. }
    rewrite List.Forall_forall in Hall. apply Hall in Hkept.
    apply list_elem_of_singleton in Hkept.
    exfalso. exact (lower_alnum_not_hyphen _ Hc Hkept).
  - intros [-> Hnone].
    destruct (sub_non_alnum_none false x Hnone) as [E|E]; rewrite E;
      reflexivity.
Qed.

(** * The paths of [scaffold] *)

Example destination_path_sample :
  destination_path ["/"; "repo"] "macos" "monitors" (lit "disk-check")
  = Returns ["/"; "repo"; "components"; "Monitors"; "macOS"; "disk-check.sh"]
  /\ destination_path ["/"; "repo"] "windows" "scripts" (lit "cleanup")
     = Returns ["/"; "repo"; "components"; "Scripts"; "cleanup.ps1"]
  /\ destination_path ["/"; "repo"] "beos" "scripts" (lit "cleanup")
     = Raises (UnknownOS "beos").
Proof. repeat split; vm_compute; reflexivity. Qed.










(** * [render_template] *)

Lemma replace_from_skip old new l : forall s,
  replace_from old new (length l) (l ++ s) = replace_from old new 0 s.
Proof.
  induction l as [|c l IH]; intros s; simpl; [destruct s; reflexivity|].
  apply IH.
Qed.

Lemma replace_from_text key new t s :
  no_lbrace t ->
  replace_from (placeholder key) new 0 (t ++ s)
  = t ++ replace_from (placeholder key) new 0 s.
Proof.
  unfold no_lbrace. induction t as [|c t IH]; intros Hn; [reflexivity|].
  cbn [app replace_from].
  assert (Hs : startswith (placeholder key) (c :: t ++ s) = false).
  { unfold startswith, placeholder. cbn [app strip_prefix].
    destruct (N.eqb_spec LBRACE c) as [<-|]; [|reflexivity].
    exfalso. apply Hn. left. reflexivity. }
  rewrite Hs, IH; [reflexivity|]. intros Hin. apply Hn. right. exact Hin.
Qed.

Lemma replace_from_same key new s :
  replace_from (placeholder key) new 0 (placeholder key ++ s)
  = new ++ replace_from (placeholder key) new 0 s.
Proof.
  assert (Hs : startswith (placeholder key) (placeholder key ++ s) = true).
  { unfold startswith. rewrite strip_prefix_app. reflexivity. }
  unfold placeholder in *. cbn [app] in *. cbn [replace_from].
  rewrite Hs. f_equal.
  cbn [length]. rewrite Nat.sub_1_r. cbn [Nat.pred].
  change (LBRACE :: (key ++ [RBRACE; RBRACE]) ++ s)
    with ((LBRACE :: key ++ [RBRACE; RBRACE]) ++ s).
  apply (replace_from_skip _ _ (LBRACE :: key ++ [RBRACE; RBRACE])).
Qed.

Lemma keys_differ key key' s :
  ~ In RBRACE key -> ~ In RBRACE key' -> key <> key' ->
  strip_prefix (key ++ [RBRACE; RBRACE]) (key' ++ [RBRACE; RBRACE] ++ s)
  = None.
Proof.
  revert key'. induction key as [|a key IH]; intros key' Hk Hk' Hne.
  - destruct key' as [|b key']; [congruence|]. cbn [app strip_prefix].
    destruct (N.eqb_spec RBRACE b) as [<-|]; [|reflexivity].
    exfalso. apply Hk'. left. reflexivity.
  - destruct key' as [|b key']; cbn [app strip_prefix].
    + destruct (N.eqb_spec a RBRACE) as [->|]; [|reflexivity].
      exfalso. apply Hk. left. reflexivity.
    + destruct (N.eqb_spec a b) as [->|]; [|reflexivity].
      apply IH.
      * intros Hin. apply Hk. right. exact Hin.
      * intros Hin. apply Hk'. right. exact Hin.
      * congruence.
Qed.

Lemma replace_from_other key key' new s :
  no_brace key -> no_brace key' -> key <> key' ->
  replace_from (placeholder key) new 0 (placeholder key' ++ s)
  = placeholder key' ++ replace_from (placeholder key) new 0 s.
Proof.
  intros [Hl Hr] [Hl' Hr'] Hne.
  unfold placeholder at 2 3. cbn [app].
  assert (H0 : startswith (placeholder key)
                 (LBRACE :: LBRACE :: (key' ++ [RBRACE; RBRACE]) ++ s)
               = false).
  { unfold startswith, placeholder. cbn [app strip_prefix].
    rewrite N.eqb_refl. rewrite <- app_assoc.
    rewrite keys_differ by assumption. reflexivity. }
  assert (H1 : startswith (placeholder key)
                 (LBRACE :: (key' ++ [RBRACE; RBRACE]) ++ s) = false).
  { unfold startswith, placeholder. cbn [app strip_prefix].
    rewrite N.eqb_refl.
    destruct key' as [|b key']; cbn [app]; [reflexivity|].
    destruct (N.eqb_spec LBRACE b) as [<-|]; [|reflexivity].
    exfalso. apply Hl'. left. reflexivity. }
  cbn [replace_from]. rewrite H0. f_equal.
  cbn [replace_from]. rewrite H1. f_equal.
  apply replace_from_text.
  unfold no_lbrace. intros Hin. apply in_app_or in Hin as [Hin|Hin].
  - exact (Hl' Hin).
  - simpl in Hin. unfold LBRACE, RBRACE in Hin. intuition discriminate.
Qed.

Lemma str_replace_segments key value segs :
  no_brace key ->
  Forall plain_segment segs ->
  str_replace (placeholder key) value (template_of segs)
  = template_of (map (fill [(key, value)]) segs).
Proof.
  intros Hk Hsegs. unfold str_replace, template_of.
  induction Hsegs as [|seg segs Hseg _ IH]; [reflexivity|].
  cbn [flat_map map]. destruct seg as [t|key']; cbn [segment_text fill].
  - rewrite replace_from_text by exact Hseg. rewrite IH. reflexivity.
  - cbn [first_value].
    destruct (bool_decide_reflect (key = key')) as [<-|Hne].
    + rewrite replace_from_same, IH. reflexivity.
    + rewrite replace_from_other by assumption. rewrite IH. reflexivity.
Qed.

Lemma fill_plain substitutions seg :
  Forall plain_item substitutions -> plain_segment seg ->
  plain_segment (fill substitutions seg).
Proof.
  intros Hs Hseg. destruct seg as [t|key]; [exact Hseg|]. simpl.
  induction Hs as [|[k v] rest [_ Hv] _ IH]; simpl; [exact Hseg|].
  destruct (bool_decide (k = key)); [exact Hv | exact IH].
Qed.

(** X24: on a template made of plain text without [{] and placeholders
    with brace-free keys, and with values without [{], [render_template]
    replaces every placeholder whose key has a value by that value and
    leaves the text and the other placeholders as they are. *)
Theorem render_template_fills (segs : list segment)
    (substitutions : list (str * str)) :
  Forall plain_segment segs ->
  Forall plain_item substitutions ->
  render_template (template_of segs) substitutions
  = template_of (map (fill substitutions) segs).
Proof.
  intros Hsegs Hsubs. revert segs Hsegs.
  induction Hsubs as [|[key value] rest [Hk Hv] Hrest IH]; intros segs Hsegs.
  - cbn [render_template]. f_equal.
    induction segs as [|[t|k] segs IHs]; [reflexivity| |];
      inversion Hsegs; subst; cbn [map fill first_value]; f_equal; auto.
  - cbn [render_template fst snd] in *.
    rewrite str_replace_segments by assumption.
    rewrite IH.
    + f_equal. rewrite map_map. apply map_ext. intros [t|k]; [reflexivity|].
      cbn [fill first_value].
      destruct (bool_decide (key = k)); reflexivity.
    + apply List.Forall_map. eapply List.Forall_impl; [|exact Hsegs].
      intros seg Hseg. apply fill_plain; [|exact Hseg].
      constructor; [split; assumption | constructor].
Qed.

Lemma render_template_fills_witness :
  render_template
    (template_of [Text (lit "# "); Hole (lit "NAME"); Text (lit " v");
                  Hole (lit "VERSION"); Hole (lit "OTHER")])
    [(lit "NAME", lit "Disk check"); (lit "VERSION", lit "0.1.0")]
  = template_of [Text (lit "# "); Text (lit "Disk check"); Text (lit " v");
                 Text (lit "0.1.0"); Hole (lit "OTHER")].
Proof.
  apply (render_template_fills
           [Text (lit "# "); Hole (lit "NAME"); Text (lit " v");
            Hole (lit "VERSION"); Hole (lit "OTHER")]
           [(lit "NAME", lit "Disk check"); (lit "VERSION", lit "0.1.0")]).
  - repeat constructor; vm_compute; intuition discriminate.
  - repeat constructor; vm_compute; intuition discriminate.
Defined.

(** A value that holds a placeholder of a later key is expanded in its
    turn: the substitutions are applied one after the other. *)
Example render_template_expands_values :
  render_template (lit "{{NAME}}")
    [(lit "NAME", lit "{{VERSION}}"); (lit "VERSION", lit "0.1.0")]
  = lit "0.1.0".
Proof. vm_compute. reflexivity. Qed.

(** * [cmd_scaffold] *)

Example cmd_scaffold_sample :
  let run := cmd_scaffold (sample_host [] 0) sample_lowering sample_encoder
               (sample_scaffold_args (lit "Disk Check") false)
               sample_scaffold_world in
  fst run = Returns 0%Z
  /\ files (snd run)
       !! ["/"; "repo"; "components"; "Monitors"; "Linux"; "disk-check.sh"]
     = Some (encode (lit "# Disk Check (disk-check) Status"))
  /\ is_dir ["/"; "repo"; "components"; "Monitors"; "Linux"] (snd run) = true
  /\ fst (cmd_scaffold (sample_host [] 0) sample_lowering sample_encoder
            (sample_scaffold_args (lit "old") false) sample_scaffold_world)
     = Raises (RefusingToOverwrite
                 ["/"; "repo"; "components"; "Monitors"; "Linux"; "old.sh"]).
Proof. repeat split; vm_compute; reflexivity. Qed.

Lemma run_result_outcome {A} (m : outcome A * World) (r : outcome A) :
  fst m = r -> m = (r, snd m).
Proof. destruct m. simpl. intros ->. reflexivity. Qed.

Lemma mkdir_cases p w r w' :
  mkdir p w = (r, w') ->
  (exists what, r = Uncaught what /\ w' = w)
  \/ (r = Ok tt
      /\ w' = {| dirs := dirs w ∪ list_to_set (ancestors_and_self p);
                 files := files w; spawned := spawned w |}).
Proof.
  unfold mkdir. destruct (is_file p w); [intros [= <- <-]; eauto|].
  destruct (existsb _ _); intros [= <- <-]; eauto.
Qed.

(** The writing steps of [cmd_scaffold]: they end in a crash that has
    touched no file but the destination, or with the destination
    written. *)
Lemma scaffold_write_cases encode_utf8 dest rendered w r w' :
  (_ <~ liftS (ensure_parent_dir dest false) ;;
   _ <~ liftS (write_text encode_utf8 dest rendered) ;;
   _ <~ (if String.eqb (suffix dest) ".sh"
         then liftS (chmod dest) else retS tt) ;;
   retS 0%Z) w = (r, w') ->
  ((exists what, r = Crashes what)
   /\ (forall q, q <> dest -> files w' !! q = files w !! q)
   /\ spawned w' = spawned w)
  \/ (exists content,
        r = Returns 0%Z
        /\ encode_utf8 rendered = Some content
        /\ w' = {| dirs := dirs w
                           ∪ list_to_set (ancestors_and_self (parent dest));
                   files := <[dest := content]> (files w);
                   spawned := spawned w |}).
Proof.
  unfold bindS at 1. unfold liftS at 1, ensure_parent_dir.
  destruct (mkdir (parent dest) w) as [r1 w1] eqn:Hm.
  apply mkdir_cases in Hm as [(what & -> & ->)|[-> ->]].
  { intros [= <- <-]. left. eauto. }
  cbn [of_result].
  unfold bindS at 1. unfold liftS at 1, write_text, bindM, open_wb.
  cbn [dirs files spawned].
  destruct (is_dir dest _) eqn:Hdir.
  { cbn [of_result]. intros [= <- <-]. left. eauto. }
  cbn [dirs files spawned].
  destruct (encode_utf8 rendered) as [content|].
  2: { cbn [of_result]. intros [= <- <-]. left. cbn [files spawned].
       split; [eauto|]. split; [|reflexivity].
       intros q Hq. apply lookup_insert_ne. congruence. }
  cbn [of_result]. rewrite insert_insert_eq.
  set (w2 := {| dirs := _; files := <[dest := content]> (files w);
                spawned := spawned w |}).
  assert (Hex : exists_ dest w2 = true).
  { unfold exists_, is_file. subst w2. cbn [files].
    rewrite lookup_insert_eq.
    rewrite (bool_decide_eq_true_2 (is_Some (Some content))) by eauto.
    apply orb_true_r. }
  unfold bindS. destruct (String.eqb _ _).
  - unfold liftS, chmod. rewrite Hex. cbn [of_result]. unfold retS.
    intros [= <- <-]. right. exists content. repeat split.
  - unfold retS. intros [= <- <-]. right. exists content. repeat split.
Qed.

(** What [cmd_scaffold] has found when it goes on past its checks. *)
Lemma cmd_scaffold_cases h unicode_lower encode_utf8 args w r w' :
  cmd_scaffold h unicode_lower encode_utf8 args w = (r, w') ->
  (w' = w /\ forall code, r <> Returns code)
  \/ exists filename output_var dest tmpl_path cat_dir os content
            template_text,
       normalize_kebab unicode_lower (scaffold_name args) = Returns filename
       /\ destination_path (REPO_ROOT h) (scaffold_os args)
            (scaffold_category args) filename = Returns dest
       /\ template_path (REPO_ROOT h) (scaffold_os args)
            (scaffold_category args) = Returns tmpl_path
       /\ exists_ dest w && negb (scaffold_force args) = false
       /\ files w !! tmpl_path = Some content
       /\ decode_utf8 h content = Some template_text
       /\ let rendered :=
            render_template template_text
              (scaffold_subs (scaffold_name args) filename cat_dir os
                 output_var (scaffold_version args)) in
          if scaffold_dry_run args then r = Returns 0%Z /\ w' = w
          else (_ <~ liftS (ensure_parent_dir dest false) ;;
                _ <~ liftS (write_text encode_utf8 dest rendered) ;;
                _ <~ (if String.eqb (suffix dest) ".sh"
                      then liftS (chmod dest) else retS tt) ;;
                retS 0%Z) w = (r, w').
Proof.
  unfold cmd_scaffold.
  unfold bindS at 1, pure at 1.
  destruct (normalize_kebab _ _) as [filename| |] eqn:Hname;
    [| intros [= <- <-]; left; split; [reflexivity | intros code; discriminate] ..].
  unfold bindS at 1.
  match goal with
  | |- match ?m w with _ => _ end = _ -> _ =>
      destruct (m w) as [[output_var| |] w0] eqn:Hvar
  end.
  2, 3: (assert (w0 = w) as ->
           by (destruct (String.eqb _ _); unfold pure, retS in Hvar;
               congruence);
         intros [= <- <-]; left; split; [reflexivity | intros code; discriminate]).
  assert (w0 = w) as ->
    by (destruct (String.eqb _ _); unfold pure, retS in Hvar; congruence).
  clear Hvar.
  unfold bindS at 1, pure at 1.
  destruct (destination_path _ _ _ _) as [dest| |] eqn:Hdest;
    [| intros [= <- <-]; left; split; [reflexivity | intros code; discriminate] ..].
  unfold bindS at 1, pure at 1.
  destruct (template_path _ _ _) as [tmpl_path| |] eqn:Htmpl;
    [| intros [= <- <-]; left; split; [reflexivity | intros code; discriminate] ..].
  unfold bindS at 1.
  destruct (exists_ tmpl_path w); cbn [negb];
    [| intros [= <- <-]; left; split; [reflexivity | intros code; discriminate]].
  unfold bindS at 1.
  destruct (exists_ dest w && negb (scaffold_force args)) eqn:Hover;
    [intros [= <- <-]; left; split; [reflexivity | intros code; discriminate]|].
  unfold bindS at 1, pure at 1.
  destruct (category_dir _) as [cat_dir| |];
    [| intros [= <- <-]; left; split; [reflexivity | intros code; discriminate] ..].
  unfold bindS at 1, pure at 1.
  destruct (os_dir _) as [os| |];
    [| intros [= <- <-]; left; split; [reflexivity | intros code; discriminate] ..].
  unfold bindS at 1. unfold liftS at 1, read_bytes.
  destruct (files w !! tmpl_path) as [content|] eqn:Hfile;
    cbn [of_result];
    [| intros [= <- <-]; left; split; [reflexivity | intros code; discriminate]].
  destruct (decode_utf8 h content) as [template_text|] eqn:Hdec;
    [| intros [= <- <-]; left; split; [reflexivity | intros code; discriminate]].
  intros Hrest. right.
  exists filename, output_var, dest, tmpl_path, cat_dir, os, content,
    template_text.
  repeat (split; [assumption || reflexivity|]).
  cbv zeta. destruct (scaffold_dry_run args).
  - unfold retS in Hrest. injection Hrest as <- <-. split; reflexivity.
  - exact Hrest.
Qed.

(** X25: an [RmmError] of [scaffold] is raised before anything is
    written, and a dry run writes nothing whatever its outcome: in both
    cases the world is left as it was. *)
Theorem scaffold_errors_leave_world (h : Host) (unicode_lower : lowering)
    (encode_utf8 : str -> option bytes) (args : ScaffoldArgs)
    (w w' : World) (r : outcome Z) :
  cmd_scaffold h unicode_lower encode_utf8 args w = (r, w') ->
  scaffold_dry_run args = true \/ (exists e, r = Raises e) ->
  w' = w.
Proof.
  intros Hrun Hcase.
  apply cmd_scaffold_cases in Hrun as [[-> _]|Hrun]; [reflexivity|].
  destruct Hrun as (filename & output_var & dest & tmpl_path & cat_dir & os
                    & content & template_text & _ & _ & _ & _ & _ & _ & Hrest).
  cbv zeta in Hrest.
  destruct (scaffold_dry_run args).
  - destruct Hrest as [_ ->]. reflexivity.
  - destruct Hcase as [|[e ->]]; [discriminate|].
    apply scaffold_write_cases in Hrest
      as [[[what Hr] _]|(c & Hr & _)]; discriminate.
Qed.

Lemma scaffold_errors_leave_world_witness :
  snd (cmd_scaffold (sample_host [] 0) sample_lowering sample_encoder
         (sample_scaffold_args (lit "old") false) sample_scaffold_world)
  = sample_scaffold_world.
Proof.
  apply (scaffold_errors_leave_world (sample_host [] 0) sample_lowering
           sample_encoder (sample_scaffold_args (lit "old") false)
           sample_scaffold_world _
           (Raises (RefusingToOverwrite
              ["/"; "repo"; "components"; "Monitors"; "Linux"; "old.sh"]))).
  - apply run_result_outcome. vm_compute. reflexivity.
  - right. eauto.
Defined.

(** X26: without [--force], [scaffold] changes no file that exists,
    whatever its outcome, and it starts no process. *)
Theorem scaffold_keeps_existing_files (h : Host) (unicode_lower : lowering)
    (encode_utf8 : str -> option bytes) (args : ScaffoldArgs)
    (w w' : World) (r : outcome Z) :
  scaffold_force args = false ->
  cmd_scaffold h unicode_lower encode_utf8 args w = (r, w') ->
  (forall q content, files w !! q = Some content ->
                     files w' !! q = Some content)
  /\ spawned w' = spawned w.
Proof.
  intros Hforce Hrun.
  apply cmd_scaffold_cases in Hrun as [[-> _]|Hrun]; [auto|].
  destruct Hrun as (filename & output_var & dest & tmpl_path & cat_dir & os
                    & content & template_text
                    & _ & _ & _ & Hover & _ & _ & Hrest).
  rewrite Hforce, andb_true_r in Hover. cbv zeta in Hrest.
  assert (Hnew : files w !! dest = None).
  { unfold exists_, is_file in Hover. apply orb_false_iff in Hover as [_ Hf].
    apply bool_decide_eq_false in Hf.
    destruct (files w !! dest); [exfalso; apply Hf; eauto | reflexivity]. }
  destruct (scaffold_dry_run args).
  - destruct Hrest as [_ ->]. auto.
  - apply scaffold_write_cases in Hrest
      as [(_ & Hframe & Hsp)|(c & _ & _ & ->)].
    + split; [|exact Hsp]. intros q c Hq. rewrite Hframe; [exact Hq|].
      congruence.
    + cbn [files spawned]. split; [|reflexivity].
      intros q c' Hq. rewrite lookup_insert_ne by congruence. exact Hq.
Qed.

Lemma scaffold_keeps_existing_files_witness :
  files (snd (cmd_scaffold (sample_host [] 0) sample_lowering sample_encoder
                (sample_scaffold_args (lit "Disk Check") false)
                sample_scaffold_world)) !! sample_template
  = Some (encode (lit "# {{NAME}} ({{FILENAME}}) {{OUTPUT_VAR}}")).
Proof.
  apply (proj1 (scaffold_keeps_existing_files (sample_host [] 0)
                  sample_lowering sample_encoder
                  (sample_scaffold_args (lit "Disk Check") false)
                  sample_scaffold_world _ (Returns 0%Z) eq_refl
                  (run_result_outcome _ _ ltac:(vm_compute; reflexivity)))).
  vm_compute. reflexivity.
Defined.



(** * Further witnesses and [parse_env_file] *)

Lemma validate_monitor_output_accepts_iff_witness :
  validate_monitor_output sample_ok (lit "Status")
  = Ok {| ok := true; errors := [] |}.
Proof.
  apply (proj2 (validate_monitor_output_accepts_iff sample_ok (lit "Status"))).
  exists (lit "Status"), 0, 2, 3, 5, 4, (lit "OK: all good").
  split; [vm_compute; reflexivity|].
  split; [unfold framed; repeat split; try lia; vm_compute; reflexivity|].
  split; [vm_compute; reflexivity|].
  split; [discriminate | reflexivity].
Defined.

Lemma normalize_kebab_raises_iff_witness :
  normalize_kebab sample_lowering (lit " -- ")
  = Raises (InvalidName (lit " -- ")).
Proof.
  apply (proj2 (normalize_kebab_raises_iff sample_lowering (lit " -- ")
                  (InvalidName (lit " -- ")))).
  split; [reflexivity|]. vm_compute. repeat constructor.
Defined.

(** X28: [parse_env_file] only reads: whatever it returns or raises,
    the world is as before; a path that does not exist gives
    [VarsFileNotFound], and no other error names the file. *)
Theorem parse_env_file_read_only (h : Host) (env_path : Path) (w w' : World)
    (r : result environment) :
  parse_env_file h env_path w = (r, w') ->
  w' = w
  /\ (exists_ env_path w = false -> r = Raise (VarsFileNotFound env_path))
  /\ (forall e, r = Raise e ->
        (e = VarsFileNotFound env_path /\ exists_ env_path w = false)
        \/ (exists raw_line, e = InvalidEnvLine raw_line)
        \/ (exists raw_line, e = EmptyEnvKey raw_line)).
Proof.
  intros H. pose proof (parse_env_file_reads _ _ _ _ _ H) as [Hw Hr].
  split; [exact Hw|]. unfold parse_env_file in H.
  destruct (exists_ env_path w) eqn:Hex; cbn [negb] in H.
  - split; [discriminate|]. intros e ->.
    unfold bindM, read_bytes, uncaught, lift in H.
    destruct (files w !! env_path); [|discriminate].
    destruct (decode_utf8 h _); [|discriminate].
    injection H as H _. right. exact (parse_env_lines_raises _ _ _ _ H).
  - injection H as <- _. split; [reflexivity|].
    intros e [= <-]. left. split; reflexivity.
Qed.

Lemma parse_env_file_read_only_witness :
  snd (parse_env_file (sample_host [] 0) ["/"; "repo"; "nowhere.env"]
         sample_world) = sample_world
  /\ fst (parse_env_file (sample_host [] 0) ["/"; "repo"; "nowhere.env"]
            sample_world)
     = Raise (VarsFileNotFound ["/"; "repo"; "nowhere.env"]).
Proof.
  destruct (parse_env_file_read_only (sample_host [] 0)
              ["/"; "repo"; "nowhere.env"] sample_world _ _
              (run_result _ _ eq_refl)) as (Hw & Hmissing & _).
  split; [exact Hw|]. apply Hmissing. vm_compute. reflexivity.
Defined.
